(** * lMDQupdate: validate, decompose and publish SAML metadata feeds

    A shallow embedding of [lMDQupdate.go] (package main of
    wayf-dk/lMDQupdate) and the properties of its pipeline:
    [validateMetadata], [createMDQFiles], [createDiscoServiceFile],
    [symlinkMetadataFolder] and [main].

    The Go standard library ([os], [path/filepath], [net/http], [fmt],
    [encoding/hex]) and the [gosaml] XML engine are the environment of the
    program.  The file system is a finite map from path names to nodes, the
    engine is an interface ([Gosaml]), and every call that leaves the
    program is recorded in a trace. *)

From Stdlib Require Import ZArith Ascii String List Lia DecimalString.
From stdpp Require Import base option list strings gmap fin_maps.

Local Open Scope Z_scope.
Local Open Scope stdpp_scope.

(** ** Go values: byte strings, [encoding/hex], [fmt] and [error] *)

(** Go's [string] and [[]byte] are both byte sequences: Rocq's [string]. *)

Definition hexdigit (n : N) : ascii :=
  ascii_of_N (if (n <? 10)%N then 48 + n else 87 + n)%N.

(** [hex.EncodeToString]: two lower-case digits per byte. *)
Fixpoint hex_EncodeToString (src : string) : string :=
  match src with
  | EmptyString => EmptyString
  | String c rest =>
      let n := N_of_ascii c in
      String (hexdigit (n / 16)) (String (hexdigit (n mod 16)) (hex_EncodeToString rest))
  end.

(** The operands of a [fmt] verb that the program uses. *)
Inductive fmtarg :=
| ArgS (s : string)          (* a string, or the message of a non-nil error *)
| ArgD (z : Z)               (* an integer *)
| ArgL (l : list string)     (* a []string *)
| ArgNil.                    (* a nil interface value, e.g. a nil error *)

Definition Z_to_string (z : Z) : string := NilZero.string_of_int (Z.to_int z).

Fixpoint join_sp (l : list string) : string :=
  match l with
  | [] => ""
  | [s] => s
  | s :: l' => s +:+ " " +:+ join_sp l'
  end.

(** One verb applied to one operand, with fmt's bad-verb output. *)
Definition fmt_verb (v : ascii) (a : fmtarg) : string :=
  match a with
  | ArgNil => "%!" +:+ String v "(<nil>)"
  | ArgS s => if Ascii.eqb v "s" then s
              else "%!" +:+ String v ("(string=" +:+ s +:+ ")")
  | ArgD z => if Ascii.eqb v "d" then Z_to_string z
              else "%!" +:+ String v ("(int=" +:+ Z_to_string z +:+ ")")
  | ArgL l => "[" +:+ join_sp l +:+ "]"
  end.

(** [fmt.Sprintf] for the one-letter verbs; operands left over are dropped. *)
Fixpoint Sprintf (format : string) (args : list fmtarg) : string :=
  match format with
  | EmptyString => EmptyString
  | String c rest =>
      if Ascii.eqb c "%" then
        match rest with
        | EmptyString => "%!(NOVERB)"
        | String v rest' =>
            if Ascii.eqb v "%" then String "%" (Sprintf rest' args)
            else match args with
                 | a :: args' => fmt_verb v a +:+ Sprintf rest' args'
                 | [] => "%!" +:+ String v "(MISSING)" +:+ Sprintf rest' []
                 end
        end
      else String c (Sprintf rest args)
  end.

(** A Go [error] that is not nil.  [fmt.Errorf] keeps its format and operands
    here so that the place an error comes from stays visible; Go keeps the
    rendered message, which is [Error]. *)
Inductive goerror :=
| ErrorString (msg : string)
| Errorf (format : string) (args : list fmtarg).

(** The interface value [error]: [None] is nil. *)
Abbreviation error := (option goerror).

Definition Error (e : goerror) : string :=
  match e with
  | ErrorString msg => msg
  | Errorf format args => Sprintf format args
  end.

(** An [error] as operand of a verb. *)
Definition ArgE (e : error) : fmtarg :=
  match e with
  | Some e => ArgS (Error e)
  | None => ArgNil
  end.

Definition err_format (e : goerror) : string :=
  match e with
  | ErrorString msg => msg
  | Errorf format _ => format
  end.

Global Instance fmtarg_eq_dec : EqDecision fmtarg.
Proof. solve_decision. Defined.
Global Instance goerror_eq_dec : EqDecision goerror.
Proof. solve_decision. Defined.

(** ** The file system *)

(** Path names are the program's strings, kept as it builds them.  A path is
    looked up as it is written: links are followed at its last component
    only, and link targets are read from the same root as every path. *)
Inductive node :=
| Dir
| File (content : string)
| Symlink (target : string).

Global Instance node_eq_dec : EqDecision node.
Proof. solve_decision. Defined.

(** The directories above [p]: every [d] with [p = d/r], shortest first.  The
    root of an absolute path is the empty prefix. *)
Fixpoint ancestors (p : string) : list string :=
  match p with
  | EmptyString => []
  | String c p' =>
      (if Ascii.eqb c "/" then [EmptyString] else []) ++ map (String c) (ancestors p')
  end.

Definition parent (p : string) : option string := last (ancestors p).

(** [p] is [d] or lies below it. *)
Definition under (d p : string) : Prop := d = p ∨ d ∈ ancestors p.

Global Instance under_dec d p : Decision (under d p).
Proof. unfold under. apply _. Defined.

(** The directory an entry is made in exists: the working directory and the
    root always do. *)
Definition parent_ok (m : gmap string node) (p : string) : bool :=
  match parent p with
  | None => true
  | Some d => bool_decide (d = "" ∨ m !! d = Some Dir)
  end.

(** Every entry lies in directories that exist. *)
Definition wf_fs (m : gmap string node) : Prop :=
  map_Forall (λ p _, Forall (λ d, d = "" ∨ m !! d = Some Dir) (ancestors p)) m.

Global Instance wf_fs_dec m : Decision (wf_fs m).
Proof. unfold wf_fs. apply _. Defined.

(** Follow the links at [p], at most [n] of them, to a path that is not a
    link (it may not exist). *)
Fixpoint chase (n : nat) (m : gmap string node) (p : string) : option string :=
  match m !! p with
  | Some (Symlink t) =>
      match n with
      | O => None
      | S n' => chase n' m t
      end
  | _ => Some p
  end.

(** Links followed by [filepath.EvalSymlinks] and by the kernel. *)
Definition evalsymlinks_max : nat := 255.
Definition kernel_max : nat := 40.

Definition has_children (m : gmap string node) (d : string) : bool :=
  bool_decide (map_Exists (λ p _, d ∈ ancestors p) m).

Definition remove_tree (d : string) (m : gmap string node) : gmap string node :=
  filter (λ kv, ¬ under d kv.1) m.

(** ** The world of a run *)

(** The calls that leave the program: the [os] and [filepath] functions with
    their path operands, an HTTP GET, a function of [gosaml]. *)
Inductive call :=
| C_Mkdir (name : string)
| C_Create (name : string)
| C_Write (fd : string)
| C_Close (fd : string)
| C_Stat (name : string)
| C_Remove (name : string)
| C_Symlink (oldname newname : string)
| C_RemoveAll (path : string)
| C_EvalSymlinks (path : string)
| C_HttpGet (url : string)
| C_Gosaml (fn : string).

Global Instance call_eq_dec : EqDecision call.
Proof. solve_decision. Defined.

Record World := mkWorld { fs : gmap string node; trace : list call }.

(** What [http.Client.Get] and [ioutil.ReadAll] of the body give. *)
Inductive http_result :=
| HttpFail (e : goerror)
| HttpResp (StatusCode : Z) (body : string) (readerr : error).

(** What the program does not control.  [fault] makes a call fail for a
    reason outside the file-system model (permissions, a full disk, an I/O
    error); a failed call changes nothing.  Both oracles see the calls made
    so far, so the same call may fail once and succeed later. *)
Record Env := mkEnv {
  getenv : string → string;
  now_unix : Z;
  http_Get : list call → string → http_result;
  fault : list call → call → error;
}.

(** A computation ends with a value or in [log.Fatalf], which prints and
    exits the process with status 1. *)
Inductive res (A : Type) :=
| Val (a : A)
| Exit (msg : string).
Arguments Val {A} a.
Arguments Exit {A} msg.

Definition M (A : Type) : Type := World → res A * World.

Definition ret {A} (a : A) : M A := λ w, (Val a, w).

Definition bind {A B} (m : M A) (k : A → M B) : M B :=
  λ w, match m w with
       | (Val a, w') => k a w'
       | (Exit msg, w') => (Exit msg, w')
       end.

Definition log_Fatalf {A} (format : string) (args : list fmtarg) : M A :=
  λ w, (Exit (Sprintf format args), w).

Declare Scope go_scope.
Delimit Scope go_scope with go.
Notation "'let*' x := m 'in' k" := (bind m (λ x, k))
  (at level 10, x pattern, m at level 100, k at level 200) : go_scope.
Notation "m ;;; k" := (bind m (λ _, k))
  (at level 100, right associativity) : go_scope.
Local Open Scope go_scope.

(** [for _, x := range l { body }] where the body leaves the function with
    the first error that is not nil. *)
Fixpoint range_err {A} (body : A → M error) (l : list A) : M error :=
  match l with
  | [] => ret None
  | x :: l' =>
      let* err := body x in
      match err with
      | Some e => ret (Some e)
      | None => range_err body l'
      end
  end.

(** [for _, x := range l { body }] *)
Fixpoint range {A} (body : A → M unit) (l : list A) : M unit :=
  match l with
  | [] => ret tt
  | x :: l' => body x ;;; range body l'
  end.

(** [for _, x := range l { body }] where the body updates a variable. *)
Fixpoint range_acc {A S} (body : S → A → M S) (l : list A) (s : S) : M S :=
  match l with
  | [] => ret s
  | x :: l' => let* s' := body s x in range_acc body l' s'
  end.

Definition PathError (op path msg : string) : goerror :=
  ErrorString (op +:+ " " +:+ path +:+ ": " +:+ msg).

Section Os.
Variable env : Env.

(** One call: recorded, failed by the environment or run on the file
    system. *)
Definition syscall {A} (c : call) (failed : goerror → A)
    (run : gmap string node → A * gmap string node) : M A :=
  λ w, let tr := trace w ++ [c] in
       match fault env (trace w) c with
       | Some e => (Val (failed e), mkWorld (fs w) tr)
       | None => let '(a, m') := run (fs w) in (Val a, mkWorld m' tr)
       end.

Definition os_Mkdir (name : string) : M error :=
  syscall (C_Mkdir name) Some (λ m,
    match m !! name with
    | Some _ => (Some (PathError "mkdir" name "file exists"), m)
    | None =>
        if bool_decide (name ≠ "") && parent_ok m name
        then (None, <[name := Dir]> m)
        else (Some (PathError "mkdir" name "no such file or directory"), m)
    end).

(** [os.Create]: open for writing, create or truncate.  The descriptor is
    the path of the file that was opened; it is nil with an error. *)
Definition os_Create (name : string) : M (option string * error) :=
  syscall (C_Create name) (λ e, (None, Some e)) (λ m,
    match chase kernel_max m name with
    | None => ((None, Some (PathError "open" name "too many levels of symbolic links")), m)
    | Some q =>
        match m !! q with
        | Some Dir => ((None, Some (PathError "open" name "is a directory")), m)
        | _ =>
            if bool_decide (q ≠ "") && parent_ok m q
            then ((Some q, None), <[q := File ""]> m)
            else ((None, Some (PathError "open" name "no such file or directory")), m)
        end
    end).

(** [File.Write] at the end of what was written since [os.Create]. *)
Definition File_Write (fd : string) (b : string) : M error :=
  syscall (C_Write fd) Some (λ m,
    match m !! fd with
    | Some (File c) => (None, <[fd := File (c +:+ b)]> m)
    | _ => (Some (PathError "write" fd "bad file descriptor"), m)
    end).

Definition File_Close (fd : string) : M unit :=
  λ w, (Val tt, mkWorld (fs w) (trace w ++ [C_Close fd])).

(** [os.Stat] follows links; only its error is used. *)
Definition os_Stat (name : string) : M error :=
  syscall (C_Stat name) Some (λ m,
    match chase kernel_max m name with
    | None => (Some (PathError "stat" name "too many levels of symbolic links"), m)
    | Some q =>
        match m !! q with
        | Some _ => (None, m)
        | None => (Some (PathError "stat" name "no such file or directory"), m)
        end
    end).

(** [os.Remove]: a file, a link (not its target) or an empty directory. *)
Definition os_Remove (name : string) : M error :=
  syscall (C_Remove name) Some (λ m,
    match m !! name with
    | None => (Some (PathError "remove" name "no such file or directory"), m)
    | Some Dir =>
        if has_children m name
        then (Some (PathError "remove" name "directory not empty"), m)
        else (None, delete name m)
    | Some _ => (None, delete name m)
    end).

Definition os_Symlink (oldname newname : string) : M error :=
  syscall (C_Symlink oldname newname) Some (λ m,
    match m !! newname with
    | Some _ => (Some (PathError "symlink" newname "file exists"), m)
    | None =>
        if bool_decide (newname ≠ "") && parent_ok m newname
        then (None, <[newname := Symlink oldname]> m)
        else (Some (PathError "symlink" newname "no such file or directory"), m)
    end).

(** [os.RemoveAll]: the path and all below it; nil for the empty path
    and for a path that does not exist. *)
Definition os_RemoveAll (path : string) : M error :=
  if bool_decide (path = "")
  then λ w, (Val None, mkWorld (fs w) (trace w ++ [C_RemoveAll path]))
  else syscall (C_RemoveAll path) Some (λ m, (None, remove_tree path m)).

(** [filepath.EvalSymlinks]: the path after its links, which has to exist;
    the empty string with an error. *)
Definition filepath_EvalSymlinks (path : string) : M (string * error) :=
  syscall (C_EvalSymlinks path) (λ e, ("", Some e)) (λ m,
    match chase evalsymlinks_max m path with
    | None => (("", Some (ErrorString "EvalSymlinks: too many links")), m)
    | Some q =>
        match m !! q with
        | Some _ => ((q, None), m)
        | None => (("", Some (PathError "lstat" q "no such file or directory")), m)
        end
    end).

Definition client_Get (url : string) : M http_result :=
  λ w, (Val (http_Get env (trace w) url), mkWorld (fs w) (trace w ++ [C_HttpGet url])).

(** A function of gosaml: recorded, its result computed by the engine. *)
Definition gosaml_call {A} (fn : string) (a : A) : M A :=
  λ w, (Val a, mkWorld (fs w) (trace w ++ [C_Gosaml fn])).

End Os.

(** ** The gosaml engine *)

Inductive crypto_Hash := crypto_SHA1.

(** The functions of [github.com/wayf-dk/gosaml] that the program calls.  A
    query context of [None] is Go's nil: the document root. *)
Class Gosaml := {
  Xp : Type;                (* a parsed document *)
  XNode : Type;             (* a node of a document *)
  PublicKey : Type;
  NewXp : string → Xp;
  NewXpFromNode : XNode → Xp;
  X2s : Xp → string;
  SchemaValidate : Xp → string → error;
  Query : Xp → option XNode → string → list XNode;
  Query1 : Xp → option XNode → string → string;
  NodeGetContent : Xp → XNode → string;
  PublicKeyInfo : string → string * PublicKey * error;
  VerifySignature : Xp → option XNode → PublicKey → error;
  Hash : crypto_Hash → string → string;
}.

(** ** The program *)

Record feedtuple := mkFeed {
  name : string;
  url : string;
  sslmodulushash : string;
}.

(** Default config values *)
Definition config : gmap string string :=
  list_to_map [
    ("metadataurl", "");
    ("discoveryurl", "https://phph.wayf.dk/DS/wayf-interfed.discofeed.jsgz");
    ("basefolder", "");
    ("datafoldernameformat", "lmdqdata_");
    ("symlinkfolder", "lmdqdata");
    ("metadataschemapath", "vendor/github.com/wayf-dk/gosaml/schemas/ws-federation.xsd")
  ].

(** [config[k]]: the empty string for a key that is not there. *)
Definition cfg (c : gmap string string) (k : string) : string := default "" (c !! k).

(** [strings.Split] for a separator that is not empty.  [skip] counts the
    bytes of a separator just found that are still to be passed over. *)
Fixpoint split_from (sep : string) (skip : nat) (cur : string) (s : string) : list string :=
  match s with
  | EmptyString => [cur]
  | String c s' =>
      match skip with
      | S k => split_from sep k cur s'
      | O =>
          if String.prefix sep s
          then cur :: split_from sep (String.length sep - 1) "" s'
          else split_from sep 0 (cur +:+ String c "") s'
      end
  end.

Definition strings_Split (s sep : string) : list string := split_from sep 0 "" s.

(** The XPath expressions that [validateMetadata] and [createMDQFiles] query. *)
Definition certificate_query : string :=
  "(/md:EntitiesDescriptor|/md:EntityDescriptor)/ds:Signature/ds:KeyInfo/ds:X509Data/ds:X509Certificate".
Definition entities_query : string :=
  "(/md:EntityDescriptor|/md:EntitiesDescriptor/md:EntityDescriptor)".

Definition indextargets : list string :=
  ["./md:IDPSSODescriptor/md:SingleSignOnService[@Binding='urn:oasis:names:tc:SAML:2.0:bindings:HTTP-Redirect']/@Location"].

Section Program.
Context (env : Env) {engine : Gosaml}.

Definition log_Printf (format : string) (args : list fmtarg) : M unit := ret tt.

(** [if fd != nil { defer fd.Close() }]: runs when the function returns,
    not when the process exits. *)
Definition defer_Close {A} (fd : option string) (body : M A) : M A :=
  let* r := body in
  match fd with
  | Some f => File_Close f ;;; ret r
  | None => ret r
  end.

(** [fd.Write] on a descriptor that may be nil. *)
Definition fd_Write (fd : option string) (b : string) : M error :=
  match fd with
  | Some f => File_Write env f b
  | None => ret (Some (ErrorString "invalid argument"))
  end.

(** One tuple of [metadataurl]: [feeds] with the feed it describes. *)
Definition initConfig_feed (feeds : list feedtuple) (feed : string) : M (list feedtuple) :=
  let fau := strings_Split feed "::" in
  match fau with
  | [feedname; url; SSLmodulusHash] =>
      if bool_decide (feedname = "") || bool_decide (url = "")
         || bool_decide (SSLmodulusHash = "")
      then log_Fatalf "Feed, url and hash string wrong '%s'" [ArgL fau]
      else ret (feeds ++ [mkFeed feedname url SSLmodulusHash])
  | _ => log_Fatalf "Wrong feed format '%s'" [ArgS feed]
  end.

(** Set initial config values.  The package variables [config] and [feeds]
    are the result.  Go ranges over a map in no fixed order: which of
    several missing values is reported is the order of [map_to_list]. *)
Definition initConfig : M (gmap string string * list feedtuple) :=
  (* Overwrite default config with config from environment variables *)
  let config :=
    map_imap (λ k v, Some (if bool_decide (getenv env k ≠ "") then getenv env k else v))
             config in
  match filter (λ kv, kv.2 = "") (map_to_list config) with
  | (k, _) :: _ => log_Fatalf "ERROR: Missing config for '%s'" [ArgS k]
  | [] =>
      (* Populate the feed array *)
      let* feeds := range_acc initConfig_feed
                      (strings_Split (cfg config "metadataurl") ";;") [] in
      ret (config, feeds)
  end.

(** Create a new set of subfolders for MDQ metadata at the basefolder
      location, named after dataFolderNameFormat and a unix timestamp. *)
Definition createDateTimeFolder (baseFolder dataFolderNameFormat : string)
    : M (string * error) :=
  let timenow := now_unix env in
  let foldername :=
    Sprintf "%s/%s%d" [ArgS baseFolder; ArgS dataFolderNameFormat; ArgD timenow] in
  let* err := os_Mkdir env foldername in
  match err with
  | Some _ => ret ("", Some (Errorf "Create new datafolder %s failed" [ArgE err]))
  | None => ret (foldername, None)
  end.

(** Create or move the symlink pointer to the folder with the active
    metadata set. *)
Definition symlinkMetadataFolder (symlinkFolder newRealFolder : string) : M error :=
  let* (oldRealFolder, err) := filepath_EvalSymlinks env symlinkFolder in
  (* Symlink exists and shall not change *)
  let createSymlink :=
    negb (bool_decide (err = None) && bool_decide (oldRealFolder = newRealFolder)) in
  (* Only cleanup if there exists a old folder *)
  let cleanup := os_RemoveAll env oldRealFolder in
  if createSymlink then
    (* Remove symlink before create a new one.  Only remove if exists. *)
    let* err := os_Stat env symlinkFolder in
    let* err := match err with
                | None => os_Remove env symlinkFolder
                | Some _ => ret None
                end in
    match err with
    | Some _ => ret err
    | None =>
        (* Create new symlink *)
        let* err := os_Symlink env newRealFolder symlinkFolder in
        match err with
        | Some _ => ret err
        | None => cleanup
        end
    end
  else cleanup.

Definition validateMetadata (metadata MetadataSchemaPath SSLmodulusHash : string)
    : M error :=
  let* dom := gosaml_call "NewXp" (NewXp metadata) in
  let* err := gosaml_call "SchemaValidate" (SchemaValidate dom MetadataSchemaPath) in
  match err with
  | Some _ => ret err
  | None =>
      let* certificate :=
        gosaml_call "Query"
          (Query dom None "(/md:EntitiesDescriptor|/md:EntityDescriptor)/ds:Signature/ds:KeyInfo/ds:X509Data/ds:X509Certificate") in
      match certificate with
      | [certificate0] =>
          let* content := gosaml_call "NodeGetContent" (NodeGetContent dom certificate0) in
          let* (keyname, key, err) := gosaml_call "PublicKeyInfo" (PublicKeyInfo content) in
          match err with
          | Some _ => ret err
          | None =>
              let* ok := gosaml_call "VerifySignature" (VerifySignature dom None key) in
              if bool_decide (ok ≠ None) || bool_decide (keyname ≠ SSLmodulusHash)
              then ret (Some (Errorf "Signature check failed. Signature %s, %s = %s"
                                     [ArgE ok; ArgS keyname; ArgS SSLmodulusHash]))
              else ret err
          end
      | _ => (* len(certificate) != 1 *)
          ret (Some (Errorf "Metadata not signed" []))
      end
  end.

(** Fetch one metadata set. *)
Definition fetchData (url : string) : M (string * error) :=
  let* r := client_Get env url in
  match r with
  | HttpFail e => ret ("", Some e)
  | HttpResp StatusCode body readerr =>
      if bool_decide (StatusCode ≠ 200)
      then ret ("", Some (Errorf "Status code: %d (%s)" [ArgD StatusCode; ArgS url]))
      else ret (body, readerr)
  end.

Definition createDiscoServiceFile (data baseFolder feedName fileName : string) : M error :=
  let dataPath := Sprintf "%s/%s" [ArgS baseFolder; ArgS feedName] in
  (* Create subdir for feed *)
  let* err := os_Mkdir env dataPath in
  match err with
  | Some _ => log_Fatalf "ERROR: subdir '%s': %s" [ArgS dataPath; ArgE err]
  | None =>
      let* (fd, err) := os_Create env (Sprintf "%s/%s" [ArgS dataPath; ArgS fileName]) in
      defer_Close fd
        match err with
        | Some _ => ret err
        | None => fd_Write fd data
        end
  end.

(** Write a metadata snipet in a file.  Dirpath is based on the parsed
    feed. *)
Definition createEntityFile (entityMetadata dirpath filename : string) : M error :=
  let* (fd, err) := os_Create env (Sprintf "%s/{sha1}%s" [ArgS dirpath; ArgS filename]) in
  defer_Close fd
    match err with
    | Some _ => ret err
    | None => fd_Write fd entityMetadata
    end.

Definition createMDQFiles (metadata baseFolder feedName : string) : M error :=
  let metadataPath := Sprintf "%s/%s" [ArgS baseFolder; ArgS feedName] in
  (* Create subdir for feed *)
  let* err := os_Mkdir env metadataPath in
  match err with
  | Some _ => log_Fatalf "ERROR: subdir '%s': %s" [ArgS metadataPath; ArgE err]
  | None =>
      let* dom := gosaml_call "NewXp" (NewXp metadata) in
      let* entities :=
        gosaml_call "Query"
          (Query dom None "(/md:EntityDescriptor|/md:EntitiesDescriptor/md:EntityDescriptor)") in
      range_err (λ entity,
        (* Create new dom with metadata sniptet for this entity *)
        let* entityMetadata := gosaml_call "X2s" (X2s (NewXpFromNode entity)) in
        (* Find the entityID and write metadata snipet to hash of entityID as filename *)
        let* entityID := gosaml_call "Query1" (Query1 dom (Some entity) "@entityID") in
        let* digest := gosaml_call "Hash" (Hash crypto_SHA1 entityID) in
        let entityIDHashName := hex_EncodeToString digest in
        let* err := createEntityFile entityMetadata metadataPath entityIDHashName in
        match err with
        | Some _ => ret err
        | None =>
            (* Find the location and write metadata snipet to hash of location as filename *)
            range_err (λ target,
              let* locations := gosaml_call "Query" (Query dom (Some entity) target) in
              range_err (λ location,
                let* content := gosaml_call "NodeGetContent" (NodeGetContent dom location) in
                let* digest := gosaml_call "Hash" (Hash crypto_SHA1 content) in
                let locatetionHashName := hex_EncodeToString digest in
                createEntityFile entityMetadata metadataPath locatetionHashName)
                locations)
              indextargets
        end)
        entities
  end.

(** The body of the loop over the feeds in [main]. *)
Definition main_feed (config : gmap string string) (folderName : string)
    (feed : feedtuple) : M unit :=
  let* (body, err) := fetchData (url feed) in
  match err with
  | Some _ => log_Fatalf "ERROR: %s" [ArgE err]
  | None =>
      let* err := validateMetadata body (cfg config "metadataschemapath")
                                   (sslmodulushash feed) in
      match err with
      | Some _ => log_Fatalf "ERROR: %s" [ArgE err]
      | None =>
          let* err := createMDQFiles body folderName (name feed) in
          match err with
          | Some _ => log_Fatalf "ERROR: %s" [ArgE err]
          | None => ret tt
          end
      end
  end.

(** [main] at the discovery service file. *)
Definition main_disco (config : gmap string string) (folderName : string) : M unit :=
  (* Fetch discovery service file. Hardcode subdir name to discoservice *)
  let* (discoServiceData, err) := fetchData (cfg config "discoveryurl") in
  match err with
  | Some _ => log_Fatalf "ERROR: %s" [ArgE err]
  | None =>
      let* err := createDiscoServiceFile discoServiceData folderName
                    "discofeed" "wayf-interfed.discofeed.jsgz" in
      match err with
      | Some _ => log_Fatalf "ERROR: %s" [ArgE err]
      | None => ret tt
      end
  end.

(** The end of [main]. *)
Definition main_promote (config : gmap string string) (folderName : string) : M unit :=
  (* When all works then move the symlink pointer and remove the old folder *)
  let* err := symlinkMetadataFolder
                (cfg config "basefolder" +:+ "/" +:+ cfg config "symlinkfolder")
                folderName in
  match err with
  | Some _ => log_Fatalf "ERROR: %s" [ArgE err]
  | None => log_Printf "OK: lMDQ update succesfull. New folder is %s" [ArgS folderName]
  end.

Definition main : M unit :=
  let* (config, feeds) := initConfig in
  let* (folderName, err) :=
    createDateTimeFolder (cfg config "basefolder") (cfg config "datafoldernameformat") in
  match err with
  | Some _ => log_Fatalf "ERROR: %s" [ArgE err]
  | None =>
      range (main_feed config folderName) feeds ;;;
      main_disco config folderName ;;;
      main_promote config folderName
  end.

End Program.

(** ** SHA-1, for running the program on concrete inputs

    FIPS 180-4 on 32-bit words kept in [N]. *)
Module SHA1.

Definition w32 (x : N) : N := (x mod 4294967296)%N.
Definition rotl (n x : N) : N := w32 (N.lor (N.shiftl x n) (N.shiftr x (32 - n))).
Definition add32 (a b : N) : N := w32 (a + b).
Definition not32 (x : N) : N := N.lxor x 4294967295.

(** [k] bytes of [x], most significant first. *)
Fixpoint be_bytes (k : nat) (x : N) : list N :=
  match k with
  | O => []
  | S k' => be_bytes k' (x / 256) ++ [(x mod 256)%N]
  end.

Definition pad (msg : list N) : list N :=
  let l := length msg in
  msg ++ [128%N] ++ replicate ((119 - l mod 64) mod 64)%nat 0%N
      ++ be_bytes 8 (8 * N.of_nat l).

(** Big-endian words of a byte list whose length is a multiple of four. *)
Fixpoint words (fuel : nat) (bs : list N) : list N :=
  match fuel, bs with
  | S f, b0 :: b1 :: b2 :: b3 :: rest =>
      (((b0 * 256 + b1) * 256 + b2) * 256 + b3)%N :: words f rest
  | _, _ => []
  end.

(** The message schedule, newest word first. *)
Fixpoint extend (n : nat) (rw : list N) : list N :=
  match n with
  | O => rw
  | S n' =>
      let x := N.lxor (N.lxor (nth 2 rw 0%N) (nth 7 rw 0%N))
                      (N.lxor (nth 13 rw 0%N) (nth 15 rw 0%N)) in
      extend n' (rotl 1 x :: rw)
  end.

Definition state : Type := N * N * N * N * N.

Definition round (i : nat) (st : state) (w : N) : state :=
  let '(a, b, c, d, e) := st in
  let '(f, k) :=
    if (i <? 20)%nat then (N.lor (N.land b c) (N.land (not32 b) d), 1518500249%N)
    else if (i <? 40)%nat then (N.lxor (N.lxor b c) d, 1859775393%N)
    else if (i <? 60)%nat
         then (N.lor (N.lor (N.land b c) (N.land b d)) (N.land c d), 2400959708%N)
    else (N.lxor (N.lxor b c) d, 3395469782%N) in
  let temp := add32 (add32 (add32 (add32 (rotl 5 a) f) e) k) w in
  (temp, a, rotl 30 b, c, d).

Fixpoint rounds (i : nat) (st : state) (ws : list N) : state :=
  match ws with
  | [] => st
  | w :: ws' => rounds (S i) (round i st w) ws'
  end.

Definition block (st : state) (ws16 : list N) : state :=
  let '(h0, h1, h2, h3, h4) := st in
  let '(a, b, c, d, e) := rounds 0 st (rev (extend 64 (rev ws16))) in
  (add32 h0 a, add32 h1 b, add32 h2 c, add32 h3 d, add32 h4 e).

Fixpoint blocks (fuel : nat) (st : state) (ws : list N) : state :=
  match fuel with
  | O => st
  | S f =>
      match ws with
      | [] => st
      | _ => blocks f (block st (take 16 ws)) (drop 16 ws)
      end
  end.

Definition init : state :=
  (1732584193%N, 4023233417%N, 2562383102%N, 271733878%N, 3285377520%N).

Fixpoint bytes_of_string (s : string) : list N :=
  match s with
  | EmptyString => []
  | String c s' => N_of_ascii c :: bytes_of_string s'
  end.

Fixpoint string_of_bytes (bs : list N) : string :=
  match bs with
  | [] => EmptyString
  | b :: bs' => String (ascii_of_N b) (string_of_bytes bs')
  end.

(** The 20-byte digest of a byte string. *)
Definition sum (data : string) : string :=
  let bs := pad (bytes_of_string data) in
  let '(h0, h1, h2, h3, h4) := blocks (length bs) init (words (length bs) bs) in
  string_of_bytes (be_bytes 4 h0 ++ be_bytes 4 h1 ++ be_bytes 4 h2
                   ++ be_bytes 4 h3 ++ be_bytes 4 h4).

End SHA1.

(** ** A miniature engine

    An instance of [Gosaml] that runs.  A document is a line of three parts,
    [certificates#signature#entities]: the certificates of its signature
    separated by [,]; [ok] or the reason the signature does not verify; the
    entities separated by [;], each [entityID@location,location,...].  A
    node is its own text, and the name of a key is its certificate. *)
Definition mini_fields (s sep : string) : list string :=
  filter (λ f, f ≠ "") (strings_Split s sep).

Definition mini_section (d : string) (i : nat) : string :=
  default "" (strings_Split d "#" !! i).

Definition mini_schema : string :=
  "vendor/github.com/wayf-dk/gosaml/schemas/ws-federation.xsd".

Definition mini_SchemaValidate (d schemapath : string) : error :=
  match strings_Split d "#" with
  | [_; _; _] =>
      if bool_decide (schemapath = mini_schema) then None
      else Some (ErrorString "Document validation error 1845")
  | _ => Some (ErrorString "Document validation error -1")
  end.

Definition mini_Query (d : string) (context : option string) (path : string) : list string :=
  match context with
  | None =>
      if bool_decide (path = certificate_query) then mini_fields (mini_section d 0) ","
      else mini_fields (mini_section d 2) ";"
  | Some n => mini_fields (default "" (strings_Split n "@" !! 1%nat)) ","
  end.

Definition mini_Query1 (d : string) (context : option string) (path : string) : string :=
  default "" (strings_Split (default d context) "@" !! 0%nat).

Definition mini_VerifySignature (d : string) (context : option string) (key : string) : error :=
  if bool_decide (mini_section d 1 = "ok") then None
  else Some (ErrorString (mini_section d 1)).

Global Instance mini : Gosaml := {|
  Xp := string;
  XNode := string;
  PublicKey := string;
  NewXp := λ metadata, metadata;
  NewXpFromNode := λ n, n;
  X2s := λ d, d;
  SchemaValidate := mini_SchemaValidate;
  Query := mini_Query;
  Query1 := mini_Query1;
  NodeGetContent := λ _ n, n;
  PublicKeyInfo := λ certificate, (certificate, certificate, None);
  VerifySignature := mini_VerifySignature;
  Hash := λ h data, match h with crypto_SHA1 => SHA1.sum data end;
|}.

(** *** Concrete runs *)

(** A federation of three entities; the first two have the same single
    sign-on location. *)
Definition hub_xml : string :=
  "certA#ok#urn:a@https://idp/sso;urn:b@https://idp/sso;urn:c".

(** The same entities signed with another key, and with a broken digest. *)
Definition other_xml : string :=
  "certB#ok#urn:a@https://idp/sso;urn:b@https://idp/sso;urn:c".
Definition tampered_xml : string :=
  "certA#digest mismatch#urn:a@https://idp/sso;urn:b@https://idp/sso;urn:c".
Definition truncated_xml : string := "certA#o".
Definition unsigned_xml : string := "#ok#urn:x".
Definition twice_signed_xml : string := "certA,certB#ok#urn:x".

Definition no_fault : list call → call → error := λ _ _, None.

Definition web (pages : list (string * string)) : list call → string → http_result :=
  λ _ u, match list_to_map (M := gmap string string) pages !! u with
         | Some body => HttpResp 200 body None
         | None => HttpResp 404 "" None
         end.

Definition settings (vars : list (string * string)) : string → string :=
  λ k, default "" (list_to_map (M := gmap string string) vars !! k).

Definition env1 : Env :=
  mkEnv (settings [("basefolder", "/srv");
                   ("metadataurl", "hub::http://md/hub.xml::certA")])
        1500000000
        (web [("http://md/hub.xml", hub_xml);
              ("https://phph.wayf.dk/DS/wayf-interfed.discofeed.jsgz", "disco")])
        no_fault.

Definition disk0 : gmap string node := {[ "/srv" := Dir ]}.

Definition world0 : World := mkWorld disk0 [].

(** A disk with a snapshot that was published before. *)
Definition disk1 : gmap string node :=
  list_to_map [
    ("/srv", Dir);
    ("/srv/lmdqdata_1", Dir);
    ("/srv/lmdqdata_1/hub", Dir);
    ("/srv/lmdqdata_1/hub/{sha1}ba2b6066c746dcd30c3b6e622a3adfbd35eaaaa9", File "urn:a");
    ("/srv/lmdqdata", Symlink "/srv/lmdqdata_1")
  ].

Definition world1 : World := mkWorld disk1 [].

Definition disco_url : string := "https://phph.wayf.dk/DS/wayf-interfed.discofeed.jsgz".


(** One good feed; the discovery service answers 404. *)
Definition env3 : Env :=
  mkEnv (settings [("basefolder", "/srv");
                   ("metadataurl", "hub::http://md/hub.xml::certA")])
        1500000000
        (web [("http://md/hub.xml", hub_xml)])
        no_fault.

(** The config of a run, and the world a computation ends in. *)
Definition config_of (env : Env) : gmap string string :=
  match (initConfig env world0).1 with
  | Val (c, _) => c
  | Exit _ => ∅
  end.

Definition after {A} (m : M A) (w : World) : World := (m w).2.

Definition folder1 : string := "/srv/lmdqdata_1500000000".

Definition live_link : string := "/srv/lmdqdata".

(** The new snapshot folder next to the published one. *)
Definition world2 : World := mkWorld (<[folder1 := Dir]> disk1) [].

(** The link is there; the snapshot it points to is not. *)
Definition world3 : World :=
  mkWorld (list_to_map [("/srv", Dir); (live_link, Symlink "/srv/lmdqdata_1")]) [].

Definition denied : goerror :=
  ErrorString "unlinkat /srv/lmdqdata_1: permission denied".

(** Nothing fails but the removal of a folder. *)
Definition env4 : Env :=
  mkEnv (getenv env1) (now_unix env1) (http_Get env1)
        (λ _ c, match c with
                | C_RemoveAll _ => Some denied
                | _ => None
                end).


(** ** Notions the properties are stated with *)

(** The calls of [symlinkMetadataFolder]; no other function of the program
    makes them. *)
Definition promotion_call (c : call) : bool :=
  match c with
  | C_EvalSymlinks _ | C_Stat _ | C_Remove _ | C_Symlink _ _ | C_RemoveAll _ => true
  | _ => false
  end.

(** Since the trace was [tr0], no call of the promotion was made. *)
Definition quiet_since (tr0 tr : list call) : Prop :=
  ∃ calls, tr = tr0 ++ calls ∧ Forall (λ c, promotion_call c = false) calls.

(** The file system while a snapshot is built in [folder], from [m0] on:
    [folder] is a directory, nothing outside it has changed, and there is no
    link in it. *)
Record building (m0 : gmap string node) (folder : string) (m : gmap string node) : Prop :=
  mkBuilding {
    building_folder : m !! folder = Some Dir;
    building_frame : ∀ k, ¬ under folder k → m !! k = m0 !! k;
    building_nolink : ∀ k t, under folder k → m !! k ≠ Some (Symlink t);
  }.

Definition Building (m0 : gmap string node) (tr0 : list call) (folder : string)
    (w : World) : Prop :=
  building m0 folder (fs w) ∧ quiet_since tr0 (trace w).

(** [m] keeps [I] whether it returns or exits, and what it returns
    satisfies [Q]. *)
Definition triple {A} (I : World → Prop) (m : M A) (Q : A → Prop) : Prop :=
  ∀ w, I w → match m w with
             | (Val a, w') => I w' ∧ Q a
             | (Exit _, w') => I w'
             end.


(** The fetch of the discovery service file fails in [w], or writing it. *)
Inductive disco_failure (env : Env) (config : gmap string string)
    (folderName : string) (w : World) : Prop :=
| disco_fetch_fails data e w1 :
    fetchData env (cfg config "discoveryurl") w = (Val (data, Some e), w1) →
    disco_failure env config folderName w
| disco_write_fails data r w1 w2 :
    fetchData env (cfg config "discoveryurl") w = (Val (data, None), w1) →
    createDiscoServiceFile env data folderName "discofeed" "wayf-interfed.discofeed.jsgz" w1
      = (r, w2) →
    r ≠ Val None →
    disco_failure env config folderName w.

(** A computation only adds to the trace. *)
Definition appends {A} (m : M A) : Prop :=
  ∀ w, ∃ calls, trace (m w).2 = trace w ++ calls.

(** *** What createMDQFiles writes *)

Section Files.
Context {engine : Gosaml}.

(** The lookup keys of an entity: its entityID, then the locations of the
    index targets. *)
Definition entity_id (dom : Xp) (entity : XNode) : string :=
  Query1 dom (Some entity) "@entityID".

Definition entity_locations (dom : Xp) (entity : XNode) : list string :=
  flat_map (λ target, map (NodeGetContent dom) (Query dom (Some entity) target))
           indextargets.

Definition entity_keys (dom : Xp) (entity : XNode) : list string :=
  entity_id dom entity :: entity_locations dom entity.

(** The metadata snippet of an entity. *)
Definition fragment (entity : XNode) : string := X2s (NewXpFromNode entity).


(** The name of the file of a key. *)
Definition mdq_name (key : string) : string :=
  "{sha1}" +:+ hex_EncodeToString (Hash crypto_SHA1 key).

Definition mdq_path (dir key : string) : string := dir +:+ "/" +:+ mdq_name key.

(** The files of a feed, name and content, in the order they are written. *)
Definition entity_files (dom : Xp) (entity : XNode) : list (string * string) :=
  map (λ key, (mdq_name key, fragment entity)) (entity_keys dom entity).

Definition mdq_files (dom : Xp) (entities : list XNode) : list (string * string) :=
  flat_map (entity_files dom) entities.

(** The entities of a feed that have a key with the file name of [key]. *)
Definition writers (dom : Xp) (entities : list XNode) (key : string) : list XNode :=
  filter (λ e, mdq_name key ∈ map mdq_name (entity_keys dom e)) entities.

End Files.

(** Files written one after the other into [dir]. *)
Definition write_files (dir : string) (files : list (string * string))
    (m : gmap string node) : gmap string node :=
  foldl (λ m f, <[dir +:+ "/" +:+ f.1 := File f.2]> m) m files.

(** No link below [dir]. *)
Definition no_link_below (dir : string) (m : gmap string node) : Prop :=
  ∀ k t, dir ∈ ancestors k → m !! k ≠ Some (Symlink t).

(** ** The library functions on small inputs *)

Example hex_example : hex_EncodeToString "J]" = "4a5d".
Proof. reflexivity. Qed.

Example Sprintf_example :
  Sprintf "Status code: %d (%s)" [ArgD 404; ArgS "http://x"] = "Status code: 404 (http://x)".
Proof. reflexivity. Qed.

Example Sprintf_nil_example :
  Sprintf "Signature %s, %s = %s" [ArgE None; ArgS "a"; ArgS "b"]
  = "Signature %!s(<nil>), a = b".
Proof. reflexivity. Qed.

Example ancestors_example : ancestors "/srv/lmdq/hub" = [""; "/srv"; "/srv/lmdq"].
Proof. reflexivity. Qed.

Example parent_example : parent "base/lmdqdata_7" = Some "base" ∧ parent "lmdqdata" = None.
Proof. split; reflexivity. Qed.

Example strings_Split_example :
  strings_Split "a::u::h;;b::v::k" ";;" = ["a::u::h"; "b::v::k"]
  ∧ strings_Split "a::u::h" "::" = ["a"; "u"; "h"]
  ∧ strings_Split "" ";;" = [""].
Proof. repeat split; reflexivity. Qed.

Example sha1_abc :
  hex_EncodeToString (SHA1.sum "abc") = "a9993e364706816aba3e25717850c26c9cd0d89d".
Proof. vm_compute. reflexivity. Qed.

Example sha1_empty :
  hex_EncodeToString (SHA1.sum "") = "da39a3ee5e6b4b0d3255bfef95601890afd80709".
Proof. vm_compute. reflexivity. Qed.

Example sha1_two_blocks :
  hex_EncodeToString
    (SHA1.sum "abcdbcdecdefdefgefghfghighijhijkijkljklmklmnlmnomnopnopq")
  = "84983e441c3bd26ebaae4aa1f95129e5e54670f1".
Proof. vm_compute. reflexivity. Qed.

(** The tests of the repository, on the miniature engine: a document cut
    short, the wrong schema, a digest that does not match, a valid
    document. *)
Example TestValidateMetadataNotValidDocument :
  (validateMetadata truncated_xml mini_schema "certA" world0).1
  = Val (Some (ErrorString "Document validation error -1")).
Proof. vm_compute. reflexivity. Qed.

Example TestValidateMetadataWrongSchema :
  (validateMetadata hub_xml "saml-schema-protocol-2.0.xsd" "certA" world0).1
  = Val (Some (ErrorString "Document validation error 1845")).
Proof. vm_compute. reflexivity. Qed.

Example TestValidateMetadataWrongDigest :
  option_map Error
    match (validateMetadata tampered_xml mini_schema "certA" world0).1 with
    | Val err => err
    | Exit _ => None
    end
  = Some "Signature check failed. Signature digest mismatch, certA = certA".
Proof. vm_compute. reflexivity. Qed.

Example TestValidateMetadata :
  (validateMetadata hub_xml mini_schema "certA" world0).1 = Val None.
Proof. vm_compute. reflexivity. Qed.

(** A whole run: the feed is indexed, the discovery file written, the link
    made. *)
Example main_run :
  (main env1 world0).1 = Val tt
  ∧ fs (after (main env1) world0) !! live_link = Some (Symlink folder1)
  ∧ fs (after (main env1) world0)
      !! (folder1 +:+ "/discofeed/wayf-interfed.discofeed.jsgz") = Some (File "disco")
  ∧ last (trace (after (main env1) world0)) = Some (C_RemoveAll "").
Proof. repeat split; vm_compute; reflexivity. Qed.

(** ** Path names *)

Section Paths.
Implicit Types (a b d p r : string).

Lemma append_cons c a b : String c a +:+ b = String c (a +:+ b).
Proof. reflexivity. Qed.

Lemma append_empty_l a : "" +:+ a = a.
Proof. reflexivity. Qed.

Lemma append_empty_r a : a +:+ "" = a.
Proof. induction a as [|c a IH]; [done|]. rewrite append_cons. congruence. Qed.

Lemma append_assoc a b r : (a +:+ b) +:+ r = a +:+ (b +:+ r).
Proof. induction a as [|c a IH]; [done|]. rewrite !append_cons. congruence. Qed.

Lemma append_inv_head a b r : a +:+ b = a +:+ r → b = r.
Proof. apply (inj (String.app a)). Qed.

Lemma append_not_self a c r : a +:+ String c r ≠ a.
Proof.
  induction a as [|x a IH]; [done|]. rewrite append_cons. intros [= H]. auto.
Qed.

(** The directory a path is built in is above it. *)
Lemma ancestors_build d r : d ∈ ancestors (d +:+ "/" +:+ r).
Proof.
  induction d as [|c d IH].
  - apply list_elem_of_here.
  - rewrite append_cons. simpl. apply elem_of_app. right.
    apply (list_elem_of_fmap_2 (String c)), IH.
Qed.

Lemma ancestors_spec d p : d ∈ ancestors p ↔ ∃ r, p = d +:+ "/" +:+ r.
Proof.
  split.
  - revert d. induction p as [|c p IH]; intros d; simpl.
    + intros H. by apply elem_of_nil in H.
    + rewrite elem_of_app. intros [H|H].
      * destruct (Ascii.eqb_spec c "/") as [->|]; [|by apply elem_of_nil in H].
        apply list_elem_of_singleton in H as ->. by exists p.
      * apply list_elem_of_fmap in H as (d' & -> & H).
        destruct (IH _ H) as [r ->]. by exists r.
  - intros [r ->]. apply ancestors_build.
Qed.

Lemma ancestors_trans a b p : a ∈ ancestors b → b ∈ ancestors p → a ∈ ancestors p.
Proof.
  rewrite !ancestors_spec. intros [r1 ->] [r2 ->].
  exists (r1 +:+ "/" +:+ r2). by rewrite !append_assoc.
Qed.

Lemma ancestors_irrefl p : p ∉ ancestors p.
Proof.
  rewrite ancestors_spec. intros [r H]. symmetry in H.
  by apply append_not_self in H.
Qed.

Lemma under_build d r : under d (d +:+ "/" +:+ r).
Proof. right. apply ancestors_build. Qed.

Lemma under_trans a b p : under a b → under b p → under a p.
Proof.
  intros [->|H1] [->|H2]; unfold under; eauto using ancestors_trans.
Qed.

Lemma Sprintf_path a b : Sprintf "%s/%s" [ArgS a; ArgS b] = a +:+ "/" +:+ b.
Proof. cbn. by rewrite append_empty_r. Qed.

Lemma Sprintf_sha1_path a b :
  Sprintf "%s/{sha1}%s" [ArgS a; ArgS b] = a +:+ "/" +:+ "{sha1}" +:+ b.
Proof. cbn. by rewrite append_empty_r. Qed.

Lemma Sprintf_folder a b z :
  Sprintf "%s/%s%d" [ArgS a; ArgS b; ArgD z] = a +:+ "/" +:+ b +:+ Z_to_string z.
Proof. cbn. by rewrite append_empty_r. Qed.

End Paths.

(** ** Running a computation *)

Section Monad.
Context {A B : Type}.
Implicit Types (m : M A) (k : A → M B) (w : World).

Lemma bind_Val m k w a w1 : m w = (Val a, w1) → bind m k w = k a w1.
Proof. intros H. unfold bind. by rewrite H. Qed.

Lemma bind_Exit m k w msg w1 : m w = (Exit msg, w1) → bind m k w = (Exit msg, w1).
Proof. intros H. unfold bind. by rewrite H. Qed.

Lemma triple_ret (I : World → Prop) (a : A) (Q : A → Prop) : Q a → triple I (ret a) Q.
Proof. intros HQ w HI. simpl. auto. Qed.

Lemma triple_bind (I : World → Prop) m k (Q : A → Prop) (R : B → Prop) :
  triple I m Q → (∀ a, Q a → triple I (k a) R) → triple I (bind m k) R.
Proof.
  intros Hm Hk w HI. unfold bind. specialize (Hm w HI).
  destruct (m w) as [[a|msg] w1]; [|done].
  destruct Hm as [HI1 HQ]. apply (Hk a HQ w1 HI1).
Qed.

Lemma triple_weaken (I : World → Prop) m (Q Q' : A → Prop) :
  triple I m Q → (∀ a, Q a → Q' a) → triple I m Q'.
Proof.
  intros Hm HQ w HI. specialize (Hm w HI).
  destruct (m w) as [[a|msg] w1]; [|done]. destruct Hm. auto.
Qed.

Lemma triple_Fatalf (I : World → Prop) format args (Q : A → Prop) :
  triple I (log_Fatalf format args) Q.
Proof. intros w HI. done. Qed.

End Monad.

Lemma triple_seq {A B} (I : World → Prop) (m : M A) (k : M B) (Q : A → Prop) (R : B → Prop) :
  triple I m Q → triple I k R → triple I (bind m (λ _, k)) R.
Proof. intros Hm Hk. eapply triple_bind; eauto. Qed.

Lemma triple_range {A} (I : World → Prop) (body : A → M unit) l :
  (∀ x, x ∈ l → triple I (body x) (λ _, True)) → triple I (range body l) (λ _, True).
Proof.
  induction l as [|x l IH]; intros Hb; simpl.
  - by apply triple_ret.
  - eapply triple_seq.
    + apply Hb, list_elem_of_here.
    + apply IH. intros y Hy. apply Hb. by apply list_elem_of_further.
Qed.

Lemma triple_range_err {A} (I : World → Prop) (body : A → M error) l :
  (∀ x, x ∈ l → triple I (body x) (λ _, True)) → triple I (range_err body l) (λ _, True).
Proof.
  induction l as [|x l IH]; intros Hb; simpl.
  - by apply triple_ret.
  - eapply triple_bind.
    + apply Hb, list_elem_of_here.
    + intros [e|] _; [by apply triple_ret|].
      apply IH. intros y Hy. apply Hb. by apply list_elem_of_further.
Qed.


Lemma bind_gosaml_call {A B} fn (a : A) (k : A → M B) w :
  bind (gosaml_call fn a) k w = k a (mkWorld (fs w) (trace w ++ [C_Gosaml fn])).
Proof. reflexivity. Qed.

(** ** Building a snapshot leaves everything else alone *)

Lemma chase_not_link n m p : (∀ t, m !! p ≠ Some (Symlink t)) → chase n m p = Some p.
Proof.
  intros H. destruct n; simpl; destruct (m !! p) as [[]|] eqn:E; try done;
    by destruct (H target).
Qed.

Lemma quiet_since_refl tr : quiet_since tr tr.
Proof. exists []. by rewrite app_nil_r. Qed.

Lemma quiet_since_snoc tr0 tr c :
  quiet_since tr0 tr → promotion_call c = false → quiet_since tr0 (tr ++ [c]).
Proof.
  intros (calls & -> & H) Hc. exists (calls ++ [c]). split.
  - by rewrite app_assoc.
  - apply Forall_app. split; [done|]. by constructor.
Qed.

Lemma building_insert m0 folder m q v :
  building m0 folder m → under folder q → (∀ t, v ≠ Symlink t) →
  m !! q ≠ Some Dir → building m0 folder (<[q := v]> m).
Proof.
  intros [Hd Hf Hl] Hq Hv Hn. split.
  - rewrite lookup_insert_ne; [done|]. intros ->. by rewrite Hd in Hn.
  - intros k Hk. rewrite lookup_insert_ne; [by apply Hf|]. by intros ->.
  - intros k t Hk. destruct (decide (q = k)) as [->|Hne].
    + rewrite lookup_insert_eq. intros [= ->]. by eapply Hv.
    + rewrite lookup_insert_ne; [|done]. by apply Hl.
Qed.

Section Building.
Context (env : Env) {engine : Gosaml}.
Context (m0 : gmap string node) (tr0 : list call) (folder : string).

Local Abbreviation I := (Building m0 tr0 folder).

Lemma triple_syscall {A} (c : call) (failed : goerror → A)
    (run : gmap string node → A * gmap string node) (Q : A → Prop) :
  promotion_call c = false →
  (∀ e, Q (failed e)) →
  (∀ m, building m0 folder m → building m0 folder (run m).2 ∧ Q (run m).1) →
  triple I (syscall env c failed run) Q.
Proof.
  intros Hc Hf Hr w [Hb Hq]. unfold syscall.
  destruct (fault env (trace w) c) as [e|].
  - split; [|done]. split; [done|]. by apply quiet_since_snoc.
  - destruct (Hr _ Hb) as [Hb' HQ]. destruct (run (fs w)) as [a m'].
    split; [|done]. split; [done|]. by apply quiet_since_snoc.
Qed.

Lemma triple_log {A} (c : call) (a : World → A) (Q : A → Prop) :
  promotion_call c = false → (∀ w, Q (a w)) →
  triple I (λ w, (Val (a w), mkWorld (fs w) (trace w ++ [c]))) Q.
Proof.
  intros Hc HQ w [Hb Hq]. split; [|done]. split; [done|]. by apply quiet_since_snoc.
Qed.

Lemma triple_os_Mkdir name :
  under folder name → triple I (os_Mkdir env name) (λ _, True).
Proof.
  intros Hu. apply triple_syscall; [done..|]. intros m Hb.
  destruct (m !! name) eqn:E; [done|].
  destruct (_ && _); [|done]. split; [|done].
  apply building_insert; [done..|]. by rewrite E.
Qed.

Lemma triple_os_Create name :
  under folder name →
  triple I (os_Create env name) (λ r, ∀ f, r.1 = Some f → f = name).
Proof.
  intros Hu. apply triple_syscall; [done..|]. intros m Hb.
  rewrite chase_not_link; [|intros t; by apply (building_nolink _ _ _ Hb)].
  destruct (m !! name) as [[]|] eqn:E; try done.
  - destruct (_ && _); [|done]. split; [|by intros ? [= <-]].
    apply building_insert; [done..|]. by rewrite E.
  - by destruct (building_nolink _ _ _ Hb name target Hu).
  - destruct (_ && _); [|done]. split; [|by intros ? [= <-]].
    apply building_insert; [done..|]. by rewrite E.
Qed.

Lemma triple_fd_Write fd b :
  (∀ f, fd = Some f → under folder f) → triple I (fd_Write env fd b) (λ _, True).
Proof.
  intros Hu. destruct fd as [f|]; simpl; [|by apply triple_ret].
  apply triple_syscall; [done..|]. intros m Hb.
  destruct (m !! f) as [[]|] eqn:E; try done. split; [|done].
  apply building_insert; [done| by apply Hu |done|]. by rewrite E.
Qed.

Lemma triple_defer_Close {A} fd (body : M A) (Q : A → Prop) :
  triple I body Q → triple I (defer_Close fd body) Q.
Proof.
  intros Hb. unfold defer_Close. eapply triple_bind; [done|]. intros a Ha.
  destruct fd as [f|]; [|by apply triple_ret].
  eapply triple_seq; [|by apply triple_ret].
  by apply (triple_log _ (λ _, tt) (λ _, True)).
Qed.

Lemma triple_gosaml_call {A} fn (a : A) (Q : A → Prop) :
  Q a → triple I (gosaml_call fn a) Q.
Proof. intros. by apply (triple_log _ (λ _, a)). Qed.

Lemma triple_fetchData url : triple I (fetchData env url) (λ _, True).
Proof.
  unfold fetchData. eapply triple_bind.
  - by apply (triple_log _ (λ w, http_Get env (trace w) url) (λ _, True)).
  - intros [e|code body readerr] _; [by apply triple_ret|].
    destruct (bool_decide _); by apply triple_ret.
Qed.

Lemma triple_validateMetadata metadata schemapath hash :
  triple I (validateMetadata metadata schemapath hash) (λ _, True).
Proof.
  unfold validateMetadata.
  eapply triple_bind; [by apply (triple_gosaml_call _ _ (λ _, True))|]. intros dom _.
  eapply triple_bind; [by apply (triple_gosaml_call _ _ (λ _, True))|]. intros [e|] _;
    [by apply triple_ret|].
  eapply triple_bind; [by apply (triple_gosaml_call _ _ (λ _, True))|].
  intros [|c [|]] _; try by apply triple_ret.
  eapply triple_bind; [by apply (triple_gosaml_call _ _ (λ _, True))|]. intros content _.
  eapply triple_bind; [by apply (triple_gosaml_call _ _ (λ _, True))|].
  intros [[keyname key] [e|]] _; [by apply triple_ret|].
  eapply triple_bind; [by apply (triple_gosaml_call _ _ (λ _, True))|]. intros ok _.
  destruct (_ || _); by apply triple_ret.
Qed.

Lemma triple_create_write path data :
  under folder path →
  triple I (let* (fd, err) := os_Create env path in
            defer_Close fd match err with
                           | Some _ => ret err
                           | None => fd_Write env fd data
                           end) (λ _, True).
Proof.
  intros Hu. eapply triple_bind; [by apply triple_os_Create|].
  intros [fd err] Hfd. apply triple_defer_Close.
  destruct err; [by apply triple_ret|].
  apply triple_fd_Write. intros f ->%Hfd. done.
Qed.

Lemma triple_createEntityFile data dirpath filename :
  under folder dirpath →
  triple I (createEntityFile env data dirpath filename) (λ _, True).
Proof.
  intros Hu. apply triple_create_write. rewrite Sprintf_sha1_path.
  eapply under_trans; [done|]. apply under_build.
Qed.

Lemma triple_createMDQFiles metadata feedName :
  triple I (createMDQFiles env metadata folder feedName) (λ _, True).
Proof.
  unfold createMDQFiles. rewrite Sprintf_path.
  assert (under folder (folder +:+ "/" +:+ feedName)) as Hu by apply under_build.
  eapply triple_bind; [by apply triple_os_Mkdir|]. intros [e|] _; [apply triple_Fatalf|].
  eapply triple_bind; [by apply (triple_gosaml_call _ _ (λ _, True))|]. intros dom _.
  eapply triple_bind; [by apply (triple_gosaml_call _ _ (λ _, True))|]. intros entities _.
  apply triple_range_err. intros entity _.
  eapply triple_bind; [by apply (triple_gosaml_call _ _ (λ _, True))|]. intros data _.
  eapply triple_bind; [by apply (triple_gosaml_call _ _ (λ _, True))|]. intros entityID _.
  eapply triple_bind; [by apply (triple_gosaml_call _ _ (λ _, True))|]. intros digest _.
  eapply triple_bind; [by apply triple_createEntityFile|]. intros [e|] _;
    [by apply triple_ret|].
  apply triple_range_err. intros target _.
  eapply triple_bind; [by apply (triple_gosaml_call _ _ (λ _, True))|]. intros locations _.
  apply triple_range_err. intros location _.
  eapply triple_bind; [by apply (triple_gosaml_call _ _ (λ _, True))|]. intros content _.
  eapply triple_bind; [by apply (triple_gosaml_call _ _ (λ _, True))|]. intros digest' _.
  by apply triple_createEntityFile.
Qed.

Lemma triple_createDiscoServiceFile data feedName fileName :
  triple I (createDiscoServiceFile env data folder feedName fileName) (λ _, True).
Proof.
  unfold createDiscoServiceFile. rewrite !Sprintf_path.
  assert (under folder (folder +:+ "/" +:+ feedName)) as Hu by apply under_build.
  eapply triple_bind; [by apply triple_os_Mkdir|]. intros [e|] _; [apply triple_Fatalf|].
  apply triple_create_write. eapply under_trans; [done|]. apply under_build.
Qed.

Lemma triple_main_feed config feed :
  triple I (main_feed env config folder feed) (λ _, True).
Proof.
  unfold main_feed.
  eapply triple_bind; [apply triple_fetchData|]. intros [body [e|]] _; [apply triple_Fatalf|].
  eapply triple_bind; [apply triple_validateMetadata|]. intros [e|] _; [apply triple_Fatalf|].
  eapply triple_bind; [apply triple_createMDQFiles|]. intros [e|] _; [apply triple_Fatalf|].
  by apply triple_ret.
Qed.

Lemma triple_main_disco config :
  triple I (main_disco env config folder) (λ _, True).
Proof.
  unfold main_disco.
  eapply triple_bind; [apply triple_fetchData|]. intros [body [e|]] _; [apply triple_Fatalf|].
  eapply triple_bind; [apply triple_createDiscoServiceFile|]. intros [e|] _;
    [apply triple_Fatalf|].
  by apply triple_ret.
Qed.

End Building.

(** ** A run that fails before the promotion *)

Lemma range_acc_keeps_world {A S} (body : S → A → M S) (l : list A) :
  (∀ s x w, (body s x w).2 = w) → ∀ s w, (range_acc body l s w).2 = w.
Proof.
  intros Hb. induction l as [|x l IH]; intros s w; simpl; [done|].
  unfold bind. specialize (Hb s x w). destruct (body s x w) as [[s'|msg] w1]; simpl in *.
  - subst. apply IH.
  - done.
Qed.

Lemma initConfig_feed_keeps_world feeds feed w : (initConfig_feed feeds feed w).2 = w.
Proof.
  unfold initConfig_feed.
  destruct (strings_Split feed "::") as [|a [|b [|c [|]]]]; try done.
  destruct (_ || _); done.
Qed.

Lemma initConfig_keeps_world env w : (initConfig env w).2 = w.
Proof.
  unfold initConfig. destruct (filter _ _) as [|[k v] rest]; [|done].
  unfold bind.
  match goal with |- context [range_acc ?f ?l ?s w] =>
    pose proof (range_acc_keeps_world f l initConfig_feed_keeps_world s w) as H;
    destruct (range_acc f l s w) as [[feeds|msg] w1]
  end; simpl in *; by subst.
Qed.

Section Runs.
Context (env : Env) {engine : Gosaml}.

Lemma createDateTimeFolder_building base format w folder w1 :
  wf_fs (fs w) →
  createDateTimeFolder env base format w = (Val (folder, None), w1) →
  fs w !! folder = None ∧ folder ≠ "" ∧ Building (fs w) (trace w) folder w1.
Proof.
  intros Hwf. unfold createDateTimeFolder.
  generalize (Sprintf "%s/%s%d" [ArgS base; ArgS format; ArgD (now_unix env)]).
  intros dir. unfold bind, os_Mkdir, syscall.
  destruct (fault _ _ _); [done|].
  destruct (fs w !! dir) eqn:E; [done|].
  destruct (bool_decide _) eqn:Hne; simpl; [|done].
  destruct (parent_ok _ _); simpl; [|done].
  intros [= <- <-]. apply bool_decide_eq_true in Hne.
  split; [done|]. split; [done|]. split; simpl.
  - split.
    + apply lookup_insert_eq.
    + intros k Hk. rewrite lookup_insert_ne; [done|]. intros ->. apply Hk. by left.
    + intros k t [<-|Hk].
      * by rewrite lookup_insert_eq.
      * rewrite lookup_insert_ne; [|intros ->; by apply ancestors_irrefl in Hk].
        intros Hl. apply Hwf in Hl. rewrite Forall_forall in Hl.
        destruct (Hl _ Hk) as [?|?]; [done|congruence].
  - apply quiet_since_snoc; [apply quiet_since_refl|done].
Qed.

Lemma building_subseteq m0 folder m :
  wf_fs m0 → m0 !! folder = None → folder ≠ "" → building m0 folder m → m0 ⊆ m.
Proof.
  intros Hwf Hnone Hne Hb. apply map_subseteq_spec. intros k v Hk.
  rewrite (building_frame _ _ _ Hb); [done|]. intros [->|Hu]; [congruence|].
  apply Hwf in Hk. rewrite Forall_forall in Hk. destruct (Hk _ Hu); congruence.
Qed.


Lemma disco_failure_Exit config folderName w :
  disco_failure env config folderName w →
  ∃ msg, (main_disco env config folderName w).1 = Exit msg.
Proof.
  intros [data e w1 Hf|data r w1 w2 Hf Hc Hr];
    unfold main_disco; rewrite (bind_Val _ _ _ _ _ Hf); simpl.
  - by eexists.
  - unfold bind. rewrite Hc. destruct r as [[e|]|msg]; simpl; by eauto.
Qed.

(** The run up to the promotion. *)
Lemma main_unfold w config feeds folderName w1 :
  (initConfig env w).1 = Val (config, feeds) →
  createDateTimeFolder env (cfg config "basefolder") (cfg config "datafoldernameformat") w
    = (Val (folderName, None), w1) →
  main env w = (range (main_feed env config folderName) feeds ;;;
                main_disco env config folderName ;;;
                main_promote env config folderName) w1.
Proof.
  intros Hi Hc. unfold main.
  rewrite (bind_Val _ _ w (config, feeds) w).
  - by rewrite (bind_Val _ _ _ _ _ Hc).
  - pose proof (initConfig_keeps_world env w) as Hw.
    destruct (initConfig env w) as [r w0]. simpl in *. by subst.
Qed.

Lemma exits_keep {A} (I : World → Prop) (m : M A) (Q : A → Prop) w msg :
  triple I m Q → I w → (m w).1 = Exit msg → ∃ w', m w = (Exit msg, w') ∧ I w'.
Proof.
  intros Hm HI He. specialize (Hm w HI). destruct (m w) as [[a|msg'] w']; [done|].
  simpl in He. injection He as ->. eauto.
Qed.

End Runs.

(** ** The files of a feed *)

Lemma write_files_app dir f1 f2 m :
  write_files dir (f1 ++ f2) m = write_files dir f2 (write_files dir f1 m).
Proof. apply foldl_app. Qed.

Lemma write_files_other dir files m q :
  (∀ n, n ∈ map fst files → q ≠ dir +:+ "/" +:+ n) →
  write_files dir files m !! q = m !! q.
Proof.
  revert m. induction files as [|[n c] files IH]; intros m Hq; simpl; [done|].
  rewrite IH.
  - rewrite lookup_insert_ne; [done|]. intros <-. eapply (Hq n); [|done]. by left.
  - intros n' Hn'. apply Hq. by right.
Qed.

(** The last write of a name is what the file holds. *)
Lemma write_files_last dir f1 n c f2 m :
  n ∉ map fst f2 →
  write_files dir (f1 ++ (n, c) :: f2) m !! (dir +:+ "/" +:+ n) = Some (File c).
Proof.
  intros Hn. rewrite write_files_app. simpl. rewrite write_files_other.
  - apply lookup_insert_eq.
  - intros n' Hn' Heq. do 2 apply append_inv_head in Heq. by subst.
Qed.

Lemma write_files_none dir files m n :
  n ∉ map fst files →
  write_files dir files m !! (dir +:+ "/" +:+ n) = m !! (dir +:+ "/" +:+ n).
Proof.
  intros Hn. apply write_files_other. intros n' Hn' Heq.
  do 2 apply append_inv_head in Heq. by subst.
Qed.

Lemma no_link_below_write dir n c m :
  no_link_below dir m → no_link_below dir (<[dir +:+ "/" +:+ n := File c]> m).
Proof.
  intros H k t Hk. destruct (decide (dir +:+ "/" +:+ n = k)) as [<-|Hne].
  - by rewrite lookup_insert_eq.
  - rewrite lookup_insert_ne; [|done]. by apply H.
Qed.

Lemma no_link_below_write_files dir files m :
  no_link_below dir m → no_link_below dir (write_files dir files m).
Proof.
  revert m. induction files as [|[n c] files IH]; intros m H; simpl; [done|].
  apply IH. by apply no_link_below_write.
Qed.

Lemma range_err_success {A} (body : A → M error) (files : A → list (string * string))
    dir l :
  (∀ x w w', body x w = (Val None, w') → no_link_below dir (fs w) →
             fs w' = write_files dir (files x) (fs w)) →
  ∀ w w', range_err body l w = (Val None, w') → no_link_below dir (fs w) →
          fs w' = write_files dir (flat_map files l) (fs w).
Proof.
  intros Hb. induction l as [|x l IH]; intros w w' H Hno; simpl in *.
  - by injection H as <-.
  - unfold bind in H. destruct (body x w) as [[[e|]|msg] w1] eqn:E; try done.
    rewrite write_files_app. specialize (Hb _ _ _ E Hno). rewrite <- Hb.
    apply IH; [done|]. rewrite Hb. by apply no_link_below_write_files.
Qed.

Lemma map_flat_map {A B C} (f : B → C) (g : A → list B) (l : list A) :
  map f (flat_map g l) = flat_map (λ x, map f (g x)) l.
Proof. induction l as [|x l IH]; simpl; [done|]. by rewrite map_app, IH. Qed.

Lemma flat_map_singleton {A B} (f : A → B) (l : list A) :
  flat_map (λ x, [f x]) l = map f l.
Proof. induction l as [|x l IH]; simpl; congruence. Qed.

Section Success.
Context (env : Env) {engine : Gosaml}.
Implicit Types (w : World) (dir : string).

(** A file that was created and written holds the data. *)
Lemma createEntityFile_success data dir filename w w' :
  createEntityFile env data dir filename w = (Val None, w') →
  no_link_below dir (fs w) →
  fs w' = <[dir +:+ "/" +:+ "{sha1}" +:+ filename := File data]> (fs w).
Proof.
  unfold createEntityFile. rewrite Sprintf_sha1_path.
  set (q := dir +:+ "/" +:+ "{sha1}" +:+ filename). intros H Hno.
  assert (chase kernel_max (fs w) q = Some q) as Hq.
  { apply chase_not_link. intros t. apply Hno. apply ancestors_build. }
  revert H. unfold bind, os_Create, syscall. rewrite Hq.
  destruct (fault _ _ _); [done|].
  assert (∀ m1, (let '(a, m') :=
                   if bool_decide (q ≠ "") && parent_ok (fs w) q
                   then (Some q, None, <[q:=File ""]> (fs w))
                   else (None, Some (PathError "open" q "no such file or directory"), fs w)
                 in (Val a, mkWorld m' (trace w ++ [C_Create q])))
               = m1 →
            (let (r, w'0) := m1 in
             match r with
             | Val a => (let (fd, err) := a in
                         defer_Close fd match err with
                                        | Some _ => ret err
                                        | None => fd_Write env fd data
                                        end) w'0
             | Exit msg => (Exit msg, w'0)
             end) = (Val None, w') →
            fs w' = <[q:=File data]> (fs w)) as Hcore.
  { intros m1 <-. destruct (_ && _); [|done].
    unfold defer_Close, bind, fd_Write, File_Write, syscall. simpl.
    destruct (fault _ _ _); [done|]. rewrite lookup_insert_eq. simpl.
    intros [= <-]. simpl. by rewrite insert_insert_eq. }
  destruct (fs w !! q) as [[]|] eqn:E; try done; by apply Hcore.
Qed.

Lemma entity_success dom dir entity w w' :
  (let* entityMetadata := gosaml_call "X2s" (X2s (NewXpFromNode entity)) in
   let* entityID := gosaml_call "Query1" (Query1 dom (Some entity) "@entityID") in
   let* digest := gosaml_call "Hash" (Hash crypto_SHA1 entityID) in
   let entityIDHashName := hex_EncodeToString digest in
   let* err := createEntityFile env entityMetadata dir entityIDHashName in
   match err with
   | Some _ => ret err
   | None =>
       range_err (λ target,
         let* locations := gosaml_call "Query" (Query dom (Some entity) target) in
         range_err (λ location,
           let* content := gosaml_call "NodeGetContent" (NodeGetContent dom location) in
           let* digest := gosaml_call "Hash" (Hash crypto_SHA1 content) in
           let locatetionHashName := hex_EncodeToString digest in
           createEntityFile env entityMetadata dir locatetionHashName)
           locations)
         indextargets
   end) w = (Val None, w') →
  no_link_below dir (fs w) →
  fs w' = write_files dir (entity_files dom entity) (fs w).
Proof.
  rewrite !bind_gosaml_call. lazy beta zeta. intros H Hno.
  unfold bind in H at 1.
  destruct (createEntityFile _ _ _ _ _) as [[[e|]|msg] w1] eqn:E; try done.
  apply createEntityFile_success in E; [|done].
  unfold entity_files, entity_keys, entity_locations. rewrite map_cons.
  change (write_files dir (?f :: ?fs) ?m) with (write_files dir fs (write_files dir [f] m)).
  simpl in E. unfold write_files at 2. simpl foldl.
  unfold mdq_name, entity_id, fragment. rewrite <- E.
  rewrite map_flat_map.
  refine (range_err_success _ _ dir indextargets _ w1 w' H _).
  - clear. intros target w w'. rewrite bind_gosaml_call. lazy beta. intros H Hno.
    rewrite map_map, <- flat_map_singleton.
    refine (range_err_success _ _ dir _ _ _ w' H Hno).
    clear. intros location w w'. rewrite !bind_gosaml_call. lazy beta zeta.
    intros H Hno. apply createEntityFile_success in H; [|done]. done.
  - rewrite E. by apply no_link_below_write.
Qed.

(** The files of a feed that was indexed without an error. *)
Lemma createMDQFiles_success metadata baseFolder feedName w w' :
  wf_fs (fs w) →
  createMDQFiles env metadata baseFolder feedName w = (Val None, w') →
  let dir := baseFolder +:+ "/" +:+ feedName in
  let dom := NewXp metadata in
  fs w !! dir = None
  ∧ fs w' = write_files dir (mdq_files dom (Query dom None entities_query))
                        (<[dir := Dir]> (fs w)).
Proof.
  intros Hwf. unfold createMDQFiles. rewrite Sprintf_path.
  set (dir := baseFolder +:+ "/" +:+ feedName). intros H. simpl.
  unfold bind in H at 1. unfold os_Mkdir, syscall in H.
  destruct (fault _ _ _); [done|].
  destruct (fs w !! dir) eqn:Hdir; [done|].
  destruct (bool_decide (dir ≠ "")) eqn:Hne; [|done].
  destruct (parent_ok _ _); [|done]. simpl in H.
  apply bool_decide_eq_true in Hne.
  rewrite !bind_gosaml_call in H. split; [done|].
  apply (range_err_success _ (entity_files (NewXp metadata)) dir) in H; [done| |].
  - intros entity w1 w1' H1 Hno. by apply entity_success.
  - simpl. intros k t Hk. rewrite lookup_insert_ne.
    + intros Hl. apply Hwf in Hl. rewrite Forall_forall in Hl.
      destruct (Hl _ Hk); congruence.
    + intros ->. by apply ancestors_irrefl in Hk.
Qed.

End Success.

Lemma write_files_lookup dir files m n :
  write_files dir files m !! (dir +:+ "/" +:+ n)
  = match last (filter (λ f, f.1 = n) files) with
    | Some f => Some (File f.2)
    | None => m !! (dir +:+ "/" +:+ n)
    end.
Proof.
  induction files as [|[n' c] files IH] using rev_ind; [done|].
  rewrite write_files_app, filter_app, last_app. simpl.
  destruct (decide (n' = n)) as [->|Hne].
  - rewrite filter_cons_True by done. simpl. apply lookup_insert_eq.
  - rewrite filter_cons_False by done. simpl. rewrite lookup_insert_ne; [done|].
    intros Heq. do 2 apply append_inv_head in Heq. done.
Qed.

Lemma last_filter_named {K} (g : K → string) (c : string) (keys : list K) (n : string) :
  last (filter (λ f : string * string, f.1 = n) (map (λ k, (g k, c)) keys))
  = if decide (n ∈ map g keys) then Some (n, c) else None.
Proof.
  induction keys as [|k keys IH] using rev_ind.
  - done.
  - rewrite !map_app, filter_app, last_app. simpl.
    destruct (decide (g k = n)) as [<-|Hne].
    + rewrite filter_cons_True by done. simpl.
      rewrite decide_True; [done|]. apply elem_of_app. right. by left.
    + rewrite filter_cons_False by done. simpl. rewrite IH.
      destruct (decide (n ∈ map g keys)) as [Hin|Hin].
      * rewrite decide_True; [done|]. apply elem_of_app. by left.
      * rewrite decide_False; [done|]. rewrite elem_of_app. intros [?|Hk]; [done|].
        apply list_elem_of_singleton in Hk. done.
Qed.

Lemma filter_ext_in {A} (P Q : A → Prop) `{!∀ x, Decision (P x), !∀ x, Decision (Q x)}
    (l : list A) :
  (∀ x, x ∈ l → P x ↔ Q x) → filter P l = filter Q l.
Proof.
  induction l as [|a l IH]; intros Hext; [done|].
  assert (filter P l = filter Q l) as Hl.
  { apply IH. intros x Hx. apply Hext. by right. }
  destruct (decide (P a)) as [Ha|Ha].
  - rewrite !filter_cons_True; [by rewrite Hl| |done]. apply Hext; [by left|done].
  - rewrite !filter_cons_False; [done| |done]. intros Hq. apply Ha, Hext; [by left|done].
Qed.

Lemma filter_none {A} (P : A → Prop) `{!∀ x, Decision (P x)} (l : list A) :
  (∀ y, y ∈ l → ¬ P y) → filter P l = [].
Proof.
  induction l as [|a l IH]; intros Hn; [done|].
  rewrite filter_cons_False; [|apply Hn; by left].
  apply IH. intros y Hy. apply Hn. by right.
Qed.

Lemma filter_unique {A} (f : A → string) (l : list A) (x : A) :
  NoDup (map f l) → x ∈ l → filter (λ y, f y = f x) l = [x].
Proof.
  induction l as [|a l IH]; intros Hnd Hx; [by apply elem_of_nil in Hx|].
  simpl in Hnd. apply NoDup_cons in Hnd as [Ha Hnd].
  apply elem_of_cons in Hx as [->|Hx].
  - rewrite filter_cons_True by done. f_equal.
    apply filter_none. intros y Hy Heq.
    apply Ha. rewrite <- Heq. by apply (list_elem_of_fmap_2 f).
  - rewrite filter_cons_False; [by apply IH|]. intros Heq.
    apply Ha. rewrite Heq. by apply (list_elem_of_fmap_2 f).
Qed.

Lemma Forall_pairs {A} (P : A → A → Prop) (l : list A) :
  Forall (λ x, Forall (P x) l) l → ∀ x y, x ∈ l → y ∈ l → P x y.
Proof.
  intros H x y Hx Hy. rewrite Forall_forall in H. specialize (H x Hx).
  rewrite Forall_forall in H. by apply H.
Qed.

Section LastWriter.
Context (env : Env) {engine : Gosaml}.

Lemma last_filter_mdq_files dom entities n :
  last (filter (λ f : string * string, f.1 = n) (mdq_files dom entities))
  = (λ e, (n, fragment e))
      <$> last (filter (λ e, n ∈ map mdq_name (entity_keys dom e)) entities).
Proof.
  induction entities as [|e entities IH] using rev_ind; [done|].
  unfold mdq_files. rewrite flat_map_app, !filter_app, !last_app.
  change (flat_map (entity_files dom) [e]) with (entity_files dom e ++ []).
  rewrite app_nil_r. fold (mdq_files dom entities). rewrite IH.
  unfold entity_files. rewrite last_filter_named.
  destruct (decide (n ∈ map mdq_name (entity_keys dom e))) as [Hin|Hin].
  - by rewrite filter_cons_True by done.
  - by rewrite filter_cons_False by done.
Qed.

(** A file of the feed holds the snippet of the last entity that has a key
    with the name of the file, and there is no file without such an entity. *)
Lemma file_of_key metadata baseFolder feedName w w' key :
  wf_fs (fs w) →
  createMDQFiles env metadata baseFolder feedName w = (Val None, w') →
  let dom := NewXp metadata in
  fs w' !! mdq_path (baseFolder +:+ "/" +:+ feedName) key
  = (λ e, File (fragment e)) <$> last (writers dom (Query dom None entities_query) key).
Proof.
  intros Hwf H. simpl.
  destruct (createMDQFiles_success env _ _ _ _ _ Hwf H) as [Hnone ->].
  unfold mdq_path. rewrite write_files_lookup, last_filter_mdq_files.
  unfold writers. destruct (last _) as [e|]; simpl; [done|].
  set (dir := baseFolder +:+ "/" +:+ feedName) in *.
  rewrite lookup_insert_ne; [|apply not_eq_sym, append_not_self].
  destruct (fs w !! (dir +:+ "/" +:+ mdq_name key)) eqn:E; [|done].
  apply Hwf in E. rewrite Forall_forall in E.
  destruct (E dir (ancestors_build _ _)) as [Hd|Hd]; [|congruence].
  exfalso. revert Hd. unfold dir. destruct baseFolder; discriminate.
Qed.

End LastWriter.

(** ** The properties of the pipeline *)

(** A decidable fact of a concrete run. *)
Ltac by_compute :=
  match goal with |- ?P => apply (bool_decide_unpack P); vm_compute; exact I end.


Lemma appends_ret {A} (a : A) : appends (ret a).
Proof. intros w. exists []. by rewrite app_nil_r. Qed.

Lemma appends_bind {A B} (m : M A) (k : A → M B) :
  appends m → (∀ a, appends (k a)) → appends (bind m k).
Proof.
  intros Hm Hk w. unfold bind. destruct (Hm w) as [r1 H1].
  destruct (m w) as [[a|msg] w1]; simpl in *; [|by eauto].
  destruct (Hk a w1) as [r2 H2]. exists (r1 ++ r2). by rewrite H2, H1, app_assoc.
Qed.

Lemma appends_syscall {A} env c (failed : goerror → A) run : appends (syscall env c failed run).
Proof.
  intros w. unfold syscall. destruct (fault _ _ _); simpl; [by eauto|].
  destruct (run (fs w)). simpl. by eauto.
Qed.

Lemma appends_os_RemoveAll env path : appends (os_RemoveAll env path).
Proof.
  unfold os_RemoveAll. destruct (bool_decide _); [|apply appends_syscall].
  intros w. simpl. by eauto.
Qed.

(** The promotion records its calls: a trace without them is a run without
    the promotion. *)
Lemma symlinkMetadataFolder_recorded env L P w :
  ∃ rest, trace (symlinkMetadataFolder env L P w).2 = trace w ++ C_EvalSymlinks L :: rest.
Proof.
  unfold symlinkMetadataFolder. unfold bind at 1.
  destruct (filepath_EvalSymlinks env L w) as [[[old err]|msg] w1] eqn:E.
  - assert (trace w1 = trace w ++ [C_EvalSymlinks L]) as Ht.
    { revert E. unfold filepath_EvalSymlinks, syscall.
      destruct (fault _ _ _); [by intros [= <- <- <-]|].
      destruct (chase _ _ _) as [q|]; [|by intros [= <- <- <-]].
      destruct (fs w !! q); by intros [= <- <- <-]. }
    match goal with |- context [trace (?m w1).2] => assert (appends m) as Hm end.
    { destruct (negb _); [|apply appends_os_RemoveAll].
      apply appends_bind; [apply appends_syscall|]. intros err1.
      apply appends_bind.
      { destruct err1; [apply appends_ret|apply appends_syscall]. }
      intros [e|]; [apply appends_ret|].
      apply appends_bind; [apply appends_syscall|].
      intros [e|]; [apply appends_ret|apply appends_os_RemoveAll]. }
    destruct (Hm w1) as [r Hr]. exists r. by rewrite Hr, Ht, <- app_assoc.
  - exfalso. revert E. unfold filepath_EvalSymlinks, syscall.
    destruct (fault _ _ _); [done|].
    destruct (chase _ _ _) as [q|]; [|done]. by destruct (fs w !! q).
Qed.

Section BeforePromotion.
Context (env : Env) {engine : Gosaml}.

(** What a run leaves behind when it exits while the snapshot is built. *)
Lemma abandoned (w w1 w' : World) folderName :
  wf_fs (fs w) → fs w !! folderName = None → folderName ≠ "" →
  Building (fs w) (trace w) folderName w' →
  quiet_since (trace w) (trace w')
  ∧ fs w ⊆ fs w'
  ∧ (∀ k, ¬ under folderName k → fs w' !! k = fs w !! k)
  ∧ fs w' !! folderName = Some Dir.
Proof.
  intros Hwf Hnone Hne [Hb Hq]. split; [done|]. split; [|split].
  - by eapply building_subseteq.
  - apply Hb.
  - apply Hb.
Qed.


(** C10: when every configured feed is fetched, validated and indexed but
    the discovery service file cannot be fetched or written, the run exits
    before symlinkMetadataFolder: no call of the promotion is made and the
    live link, as every entry that existed before, is unchanged. *)
Theorem failed_disco_never_promotes w config feeds folderName w1 w2 :
  wf_fs (fs w) →
  (initConfig env w).1 = Val (config, feeds) →
  createDateTimeFolder env (cfg config "basefolder") (cfg config "datafoldernameformat") w
    = (Val (folderName, None), w1) →
  range (main_feed env config folderName) feeds w1 = (Val tt, w2) →
  disco_failure env config folderName w2 →
  ∃ msg w', main env w = (Exit msg, w')
    ∧ quiet_since (trace w) (trace w')
    ∧ fs w ⊆ fs w'
    ∧ (∀ k, ¬ under folderName k → fs w' !! k = fs w !! k)
    ∧ fs w' !! folderName = Some Dir.
Proof.
  intros Hwf Hinit Hdir Hfeeds Hfail.
  destruct (createDateTimeFolder_building env _ _ _ _ _ Hwf Hdir) as (Hnone & Hne & HI1).
  assert (Building (fs w) (trace w) folderName w2) as HI2.
  { pose proof (triple_range _ (main_feed env config folderName) feeds
      (λ x _, triple_main_feed env (fs w) (trace w) folderName config x) w1 HI1) as H.
    rewrite Hfeeds in H. apply H. }
  destruct (disco_failure_Exit env _ _ _ Hfail) as [msg Hmsg].
  destruct (exits_keep _ _ _ _ _
    (triple_main_disco env (fs w) (trace w) folderName config) HI2 Hmsg)
    as (w3 & Hexit & HI3).
  exists msg, w3. split; [|by eapply abandoned].
  rewrite (main_unfold env w config _ folderName w1 Hinit Hdir).
  rewrite (bind_Val _ _ _ _ _ Hfeeds). by apply bind_Exit.
Qed.

End BeforePromotion.


(** The discovery service answers 404 after the only feed was indexed. *)
Lemma failed_disco_never_promotes_witness :
  ∃ msg w', main env3 world1 = (Exit msg, w')
    ∧ quiet_since (trace world1) (trace w')
    ∧ fs world1 ⊆ fs w'
    ∧ (∀ k, ¬ under folder1 k → fs w' !! k = fs world1 !! k)
    ∧ fs w' !! folder1 = Some Dir.
Proof.
  pose (w1 := after (createDateTimeFolder env3 "/srv" "lmdqdata_") world1).
  pose (hub := mkFeed "hub" "http://md/hub.xml" "certA").
  pose (w2 := after (main_feed env3 (config_of env3) folder1 hub) w1).
  apply (failed_disco_never_promotes env3 world1 (config_of env3) [hub] folder1 w1 w2).
  - by_compute.
  - vm_compute. reflexivity.
  - vm_compute. reflexivity.
  - vm_compute. reflexivity.
  - apply (disco_fetch_fails env3 _ _ _ ""
             (Errorf "Status code: %d (%s)" [ArgD 404; ArgS disco_url])
             (after (fetchData env3 disco_url) w2)).
    vm_compute. reflexivity.
Defined.

(** *** validateMetadata *)

Section Validate.
Context {engine : Gosaml}.
Implicit Types (metadata schemapath hash : string) (w : World).

(** C8: for an input that the schema validation rejects (not well-formed,
    not valid, cut short), validateMetadata returns the error of the schema
    validation: it does return, and the only calls it has made are the parse
    and the schema validation, no certificate query, no key derivation and no
    signature verification. *)
Theorem schema_violation_short_circuits metadata schemapath hash w e :
  SchemaValidate (NewXp metadata) schemapath = Some e →
  validateMetadata metadata schemapath hash w
  = (Val (Some e),
     mkWorld (fs w) (trace w ++ [C_Gosaml "NewXp"; C_Gosaml "SchemaValidate"])).
Proof.
  intros H. unfold validateMetadata. rewrite !bind_gosaml_call, H. simpl.
  by rewrite <- app_assoc.
Qed.

(** C4, as the program has it: for a schema-valid document, validateMetadata
    fails with one and the same error, "Metadata not signed", whenever the
    certificate query finds a number of certificates other than one, be it
    zero or more than one; the two cases are not told apart. *)
Theorem not_one_certificate_same_error metadata schemapath hash w :
  SchemaValidate (NewXp metadata) schemapath = None →
  length (Query (NewXp metadata) None certificate_query) ≠ 1%nat →
  validateMetadata metadata schemapath hash w
  = (Val (Some (Errorf "Metadata not signed" [])),
     mkWorld (fs w)
       (trace w ++ [C_Gosaml "NewXp"; C_Gosaml "SchemaValidate"; C_Gosaml "Query"])).
Proof.
  intros Hs Hn. unfold validateMetadata. unfold certificate_query in Hn. rewrite !bind_gosaml_call, Hs, bind_gosaml_call.
  destruct (Query _ _ _) as [|c [|c' l]]; simpl in *; try done;
    by rewrite <- !app_assoc.
Qed.

(** C5, as the program has it: for a schema-valid document with one
    certificate whose key is derived, validateMetadata fails when the
    signature does not verify or the name of the key differs from the
    expected one, and in both cases with the error of the same fmt.Errorf:
    the format "Signature check failed. Signature %s, %s = %s" with the
    result of the verification (nil when the signature verifies) and the two
    names.  A valid signature by another key is rejected, with no error of
    its own. *)
Theorem signature_check_one_error metadata schemapath hash w c keyname key ok :
  SchemaValidate (NewXp metadata) schemapath = None →
  Query (NewXp metadata) None certificate_query = [c] →
  PublicKeyInfo (NodeGetContent (NewXp metadata) c) = (keyname, key, None) →
  VerifySignature (NewXp metadata) None key = ok →
  ok ≠ None ∨ keyname ≠ hash →
  (validateMetadata metadata schemapath hash w).1
  = Val (Some (Errorf "Signature check failed. Signature %s, %s = %s"
                      [ArgE ok; ArgS keyname; ArgS hash])).
Proof.
  intros Hs Hq Hk Hv Hor. unfold validateMetadata.
  unfold certificate_query in Hq.
  rewrite !bind_gosaml_call, Hs, bind_gosaml_call. lazy beta.
  rewrite Hq, !bind_gosaml_call. lazy beta. rewrite Hk, bind_gosaml_call.
  lazy beta. rewrite Hv.
  destruct (bool_decide (ok ≠ None) || bool_decide (keyname ≠ hash)) eqn:E; [done|].
  apply orb_false_iff in E as [E1 E2].
  apply bool_decide_eq_false in E1, E2. tauto.
Qed.

End Validate.

Lemma schema_violation_short_circuits_witness :
  validateMetadata truncated_xml mini_schema "certA" world0
  = (Val (Some (ErrorString "Document validation error -1")),
     mkWorld disk0 [C_Gosaml "NewXp"; C_Gosaml "SchemaValidate"]).
Proof.
  apply (schema_violation_short_circuits truncated_xml mini_schema "certA" world0).
  vm_compute. reflexivity.
Defined.

Lemma not_one_certificate_same_error_witness :
  validateMetadata twice_signed_xml mini_schema "certA" world0
  = (Val (Some (Errorf "Metadata not signed" [])),
     mkWorld disk0 [C_Gosaml "NewXp"; C_Gosaml "SchemaValidate"; C_Gosaml "Query"]).
Proof.
  apply (not_one_certificate_same_error twice_signed_xml mini_schema "certA" world0).
  - vm_compute. reflexivity.
  - vm_compute. lia.
Defined.

(** C4 fails: a document without a certificate and a document with two get
    the same error, with the same message. *)
Lemma unsigned_and_ambiguous_not_distinguished :
  SchemaValidate (NewXp unsigned_xml) mini_schema = None
  ∧ SchemaValidate (NewXp twice_signed_xml) mini_schema = None
  ∧ length (Query (NewXp unsigned_xml) None certificate_query) = 0%nat
  ∧ length (Query (NewXp twice_signed_xml) None certificate_query) = 2%nat
  ∧ ∃ e, (validateMetadata unsigned_xml mini_schema "certA" world0).1 = Val (Some e)
       ∧ (validateMetadata twice_signed_xml mini_schema "certA" world0).1 = Val (Some e)
       ∧ Error e = "Metadata not signed".
Proof.
  repeat split; try (vm_compute; reflexivity).
  exists (Errorf "Metadata not signed" []). repeat split; vm_compute; reflexivity.
Qed.

Lemma signature_check_one_error_witness :
  (validateMetadata other_xml mini_schema "certA" world0).1
  = Val (Some (Errorf "Signature check failed. Signature %s, %s = %s"
                      [ArgNil; ArgS "certB"; ArgS "certA"])).
Proof.
  apply (signature_check_one_error (engine := mini) other_xml mini_schema "certA" world0
           "certB" "certB" "certB" None).
  - vm_compute. reflexivity.
  - vm_compute. reflexivity.
  - vm_compute. reflexivity.
  - vm_compute. reflexivity.
  - right. discriminate.
Defined.

(** C5 fails: a valid signature by a key that is not the expected one, and a
    signature that does not verify, get the error of one format; only the
    operands differ. *)
Lemma untrusted_signer_not_a_distinct_error :
  VerifySignature (NewXp other_xml) None "certB" = None
  ∧ VerifySignature (NewXp tampered_xml) None "certA" ≠ None
  ∧ ∃ e1 e2,
      (validateMetadata other_xml mini_schema "certA" world0).1 = Val (Some e1)
      ∧ (validateMetadata tampered_xml mini_schema "certA" world0).1 = Val (Some e2)
      ∧ err_format e1 = err_format e2
      ∧ Error e1 = "Signature check failed. Signature %!s(<nil>), certB = certA"
      ∧ Error e2 = "Signature check failed. Signature digest mismatch, certA = certA".
Proof.
  split; [vm_compute; reflexivity|]. split; [vm_compute; discriminate|].
  exists (Errorf "Signature check failed. Signature %s, %s = %s"
                 [ArgNil; ArgS "certB"; ArgS "certA"]),
         (Errorf "Signature check failed. Signature %s, %s = %s"
                 [ArgS "digest mismatch"; ArgS "certA"; ArgS "certA"]).
  repeat split; vm_compute; reflexivity.
Qed.

(** *** symlinkMetadataFolder *)

Lemma chase_dangling n m L t :
  m !! L = Some (Symlink t) → m !! t = None → chase (S n) m L = Some t.
Proof. intros HL Ht. simpl. rewrite HL. destruct n; simpl; by rewrite Ht. Qed.

Section Promotion.
Context (env : Env).
Implicit Types (L P : string) (w : World).

Lemma EvalSymlinks_dangling L t w :
  fs w !! L = Some (Symlink t) → fs w !! t = None →
  ∃ e, filepath_EvalSymlinks env L w
       = (Val ("", Some e), mkWorld (fs w) (trace w ++ [C_EvalSymlinks L])).
Proof.
  intros HL Ht. unfold filepath_EvalSymlinks, syscall.
  destruct (fault _ _ _); [by eauto|].
  unfold evalsymlinks_max. rewrite (chase_dangling _ _ _ _ HL Ht), Ht. by eauto.
Qed.

Lemma Stat_dangling L t w :
  fs w !! L = Some (Symlink t) → fs w !! t = None →
  ∃ e, os_Stat env L w = (Val (Some e), mkWorld (fs w) (trace w ++ [C_Stat L])).
Proof.
  intros HL Ht. unfold os_Stat, syscall.
  destruct (fault _ _ _); [by eauto|].
  unfold kernel_max. rewrite (chase_dangling _ _ _ _ HL Ht), Ht. by eauto.
Qed.

Lemma Symlink_exists P L w :
  is_Some (fs w !! L) →
  ∃ e, os_Symlink env P L w = (Val (Some e), mkWorld (fs w) (trace w ++ [C_Symlink P L])).
Proof.
  intros [x Hx]. unfold os_Symlink, syscall.
  destruct (fault _ _ _); [by eauto|]. rewrite Hx. by eauto.
Qed.

(** C9: when the live link exists but its target does not, the promotion
    does not remove the link (os.Stat follows it and fails), so os.Symlink
    finds it in place and fails: symlinkMetadataFolder returns an error for
    every new snapshot path and leaves the file system as it was, the
    dangling link included. *)
Theorem dangling_link_blocks_promotion L P t w :
  fs w !! L = Some (Symlink t) →
  fs w !! t = None →
  ∃ e, symlinkMetadataFolder env L P w
       = (Val (Some e),
          mkWorld (fs w) (trace w ++ [C_EvalSymlinks L; C_Stat L; C_Symlink P L])).
Proof.
  intros HL Ht. unfold symlinkMetadataFolder.
  destruct (EvalSymlinks_dangling L t w HL Ht) as [e1 H1].
  rewrite (bind_Val _ _ _ _ _ H1). simpl.
  destruct (Stat_dangling L t (mkWorld (fs w) (trace w ++ [C_EvalSymlinks L])) HL Ht)
    as [e2 H2].
  rewrite (bind_Val _ _ _ _ _ H2). simpl.
  destruct (Symlink_exists P L
    (mkWorld (fs w) ((trace w ++ [C_EvalSymlinks L]) ++ [C_Stat L]))) as [e3 H3].
  { simpl. by rewrite HL. }
  unfold bind at 1. simpl. rewrite (bind_Val _ _ _ _ _ H3). simpl.
  exists e3. by rewrite <- !app_assoc.
Qed.

Lemma syscall_inv {A} c (failed : goerror → A) run w :
  ∃ a m', syscall env c failed run w = (Val a, mkWorld m' (trace w ++ [c]))
    ∧ match fault env (trace w) c with
      | Some e => a = failed e ∧ m' = fs w
      | None => (a, m') = run (fs w)
      end.
Proof.
  unfold syscall. destruct (fault _ _ _) as [e|]; [by eauto|].
  destruct (run (fs w)) as [a m']. by eauto.
Qed.

Ltac syscall_inv H :=
  match goal with
  | |- context [syscall env ?c ?f ?r ?w] =>
      destruct (syscall_inv c f r w) as (? & ? & -> & H)
  end.

Lemma EvalSymlinks_inv L w :
  ∃ r, filepath_EvalSymlinks env L w
       = (Val r, mkWorld (fs w) (trace w ++ [C_EvalSymlinks L])).
Proof.
  unfold filepath_EvalSymlinks. syscall_inv H.
  destruct (fault _ _ _); [destruct H as [-> ->]; by eauto|].
  destruct (chase _ _ _) as [q|]; [destruct (fs w !! q)|]; injection H as -> ->; by eauto.
Qed.

Lemma os_Stat_inv L w :
  ∃ err, os_Stat env L w = (Val err, mkWorld (fs w) (trace w ++ [C_Stat L])).
Proof.
  unfold os_Stat. syscall_inv H.
  destruct (fault _ _ _); [destruct H as [-> ->]; by eauto|].
  destruct (chase _ _ _) as [q|]; [destruct (fs w !! q)|]; injection H as -> ->; by eauto.
Qed.

Lemma os_Remove_inv L w :
  ∃ err m', os_Remove env L w = (Val err, mkWorld m' (trace w ++ [C_Remove L])).
Proof. unfold os_Remove. syscall_inv H. by eauto. Qed.

Lemma os_Symlink_inv P L w :
  ∃ err m', os_Symlink env P L w = (Val err, mkWorld m' (trace w ++ [C_Symlink P L]))
    ∧ (err = None → m' !! L = Some (Symlink P)).
Proof.
  unfold os_Symlink. syscall_inv H. eexists _, _. split; [done|]. intros ->.
  destruct (fault _ _ _); [by destruct H|].
  destruct (fs w !! L); [done|]. destruct (_ && _); [|done].
  injection H as ->. apply lookup_insert_eq.
Qed.

Lemma os_RemoveAll_inv path w :
  ∃ r m', os_RemoveAll env path w = (Val r, mkWorld m' (trace w ++ [C_RemoveAll path]))
    ∧ (∀ e, path ≠ "" → fault env (trace w) (C_RemoveAll path) = Some e →
         r = Some e ∧ m' = fs w).
Proof.
  unfold os_RemoveAll. case_bool_decide as Hp.
  - eexists _, _. split; [done|]. by intros.
  - syscall_inv H. eexists _, _. split; [done|]. intros e _ He. by rewrite He in H.
Qed.

Lemma snoc2 {A} (l : list A) a b : l ++ [a; b] = (l ++ [a]) ++ [b].
Proof. by rewrite <- app_assoc. Qed.

(** C6, as the program has it: when symlinkMetadataFolder has made the new
    link and its last call, the recursive removal of the folder the link
    resolved to before, fails, the new link stays in place, but the failure
    is what symlinkMetadataFolder returns, and main exits on it with a fatal
    error. *)
Theorem cleanup_failure_is_returned L P w r w' tr old e :
  symlinkMetadataFolder env L P w = (r, w') →
  trace w' = tr ++ [C_Symlink P L; C_RemoveAll old] →
  old ≠ "" →
  fault env (tr ++ [C_Symlink P L]) (C_RemoveAll old) = Some e →
  r = Val (Some e)
  ∧ fs w' !! L = Some (Symlink P)
  ∧ ∀ config, L = cfg config "basefolder" +:+ "/" +:+ cfg config "symlinkfolder" →
      main_promote env config P w = (Exit (Sprintf "ERROR: %s" [ArgS (Error e)]), w').
Proof.
  intros H Htr Hne Hf.
  cut (r = Val (Some e) ∧ fs w' !! L = Some (Symlink P)).
  { intros [-> Hl]. split; [done|]. split; [done|]. intros config ->.
    unfold main_promote. by rewrite (bind_Val _ _ _ _ _ H). }
  revert H Htr Hne Hf. clear.
  intros H Htr Hne Hf. rewrite snoc2 in Htr. unfold symlinkMetadataFolder in H.
  destruct (EvalSymlinks_inv L w) as [[old' err0] E0].
  rewrite (bind_Val _ _ _ _ _ E0) in H.
  destruct (negb _).
  - destruct (os_Stat_inv L (mkWorld (fs w) (trace w ++ [C_EvalSymlinks L]))) as [err1 E1].
    rewrite (bind_Val _ _ _ _ _ E1) in H. simpl in H.
    assert (∃ err2 m2 calls,
      (match err1 with Some _ => ret None | None => os_Remove env L end)
        (mkWorld (fs w) ((trace w ++ [C_EvalSymlinks L]) ++ [C_Stat L]))
      = (Val err2, mkWorld m2 (trace w ++ C_EvalSymlinks L :: C_Stat L :: calls))
      ∧ (calls = [] ∨ calls = [C_Remove L])) as (err2 & m2 & calls & E2 & Hcalls).
    { destruct err1.
      - eexists _, _, []. split; [|by left]. unfold ret. by rewrite <- app_assoc.
      - destruct (os_Remove_inv L
          (mkWorld (fs w) ((trace w ++ [C_EvalSymlinks L]) ++ [C_Stat L])))
          as (err2 & m2 & ->).
        eexists _, _, [_]. split; [|by right]. simpl. by rewrite <- !app_assoc. }
    rewrite (bind_Val _ _ _ _ _ E2) in H.
    destruct err2 as [e2|].
    + injection H as <- <-. simpl in Htr. exfalso.
      destruct Hcalls as [-> | ->].
      * change (trace w ++ [C_EvalSymlinks L; C_Stat L])
          with (trace w ++ [C_EvalSymlinks L] ++ [C_Stat L]) in Htr.
        rewrite app_assoc in Htr. by apply app_inj_tail in Htr as [_ ?].
      * change (trace w ++ [C_EvalSymlinks L; C_Stat L; C_Remove L])
          with (trace w ++ [C_EvalSymlinks L; C_Stat L] ++ [C_Remove L]) in Htr.
        rewrite app_assoc in Htr. by apply app_inj_tail in Htr as [_ ?].
    + destruct (os_Symlink_inv P L
        (mkWorld m2 (trace w ++ C_EvalSymlinks L :: C_Stat L :: calls)))
        as (err3 & m3 & E3 & Hlink).
      rewrite (bind_Val _ _ _ _ _ E3) in H. simpl in H. destruct err3 as [e3|].
      * injection H as <- <-. simpl in Htr. exfalso.
        by apply app_inj_tail in Htr as [_ ?].
      * destruct (os_RemoveAll_inv old'
          (mkWorld m3 ((trace w ++ C_EvalSymlinks L :: C_Stat L :: calls)
                       ++ [C_Symlink P L]))) as (r4 & m4 & E4 & Hfail).
        rewrite E4 in H. injection H as <- <-. simpl in *.
        apply app_inj_tail in Htr as [Htr [= ->]].
        rewrite Htr in Hfail. destruct (Hfail e Hne Hf) as [-> ->]. auto.
  - destruct (os_RemoveAll_inv old' (mkWorld (fs w) (trace w ++ [C_EvalSymlinks L])))
      as (r4 & m4 & E4 & _).
    rewrite E4 in H. injection H as <- <-. simpl in Htr. exfalso.
    apply app_inj_tail in Htr as [Htr _]. by apply app_inj_tail in Htr as [_ ?].
Qed.

Lemma remove_tree_under d m k : under d k → remove_tree d m !! k = None.
Proof.
  intros Hu. apply map_lookup_filter_None. right. intros x _ Hn. by apply Hn.
Qed.

Lemma remove_tree_other d m k : ¬ under d k → remove_tree d m !! k = m !! k.
Proof.
  intros Hu. unfold remove_tree. rewrite map_lookup_filter.
  destruct (m !! k) as [x|]; simpl; [|done]. by rewrite option_guard_True.
Qed.

(** C1 fails on the code: when the live link already resolves to the new
    snapshot folder, symlinkMetadataFolder leaves the link alone and then
    removes the folder it resolves to, which is the new snapshot itself.  It
    returns nil, the snapshot and all below it are gone, and the link is
    still there, now dangling. *)
Theorem second_promotion_deletes_snapshot L P w :
  chase evalsymlinks_max (fs w) L = Some P →
  is_Some (fs w !! P) →
  P ≠ "" →
  fault env (trace w) (C_EvalSymlinks L) = None →
  fault env (trace w ++ [C_EvalSymlinks L]) (C_RemoveAll P) = None →
  ∃ w', symlinkMetadataFolder env L P w = (Val None, w')
    ∧ trace w' = trace w ++ [C_EvalSymlinks L; C_RemoveAll P]
    ∧ (∀ k, under P k → fs w' !! k = None)
    ∧ (∀ k, ¬ under P k → fs w' !! k = fs w !! k).
Proof.
  intros Hc [x Hx] Hne Hf1 Hf2.
  exists (mkWorld (remove_tree P (fs w)) (trace w ++ [C_EvalSymlinks L; C_RemoveAll P])).
  split; [|split; [done|split]].
  - unfold symlinkMetadataFolder, bind, filepath_EvalSymlinks, syscall.
    rewrite Hf1, Hc, Hx. simpl.
    rewrite !bool_decide_eq_true_2 by done. simpl.
    unfold os_RemoveAll. rewrite bool_decide_eq_false_2 by done.
    unfold syscall. simpl. rewrite Hf2. by rewrite <- app_assoc.
  - intros k Hk. by apply remove_tree_under.
  - intros k Hk. by apply remove_tree_other.
Qed.

End Promotion.

Lemma dangling_link_blocks_promotion_witness :
  ∃ e, symlinkMetadataFolder env1 live_link folder1 world3
       = (Val (Some e),
          mkWorld (fs world3)
            (trace world3 ++ [C_EvalSymlinks live_link; C_Stat live_link;
                              C_Symlink folder1 live_link])).
Proof.
  apply (dangling_link_blocks_promotion env1 live_link folder1 "/srv/lmdqdata_1" world3);
    vm_compute; reflexivity.
Defined.

(** The removal of the old snapshot is denied: the link is moved and
    symlinkMetadataFolder returns the denial. *)
Lemma cleanup_failure_is_returned_witness :
  (symlinkMetadataFolder env4 live_link folder1 world2).1 = Val (Some denied)
  ∧ fs (symlinkMetadataFolder env4 live_link folder1 world2).2 !! live_link
    = Some (Symlink folder1).
Proof.
  destruct (cleanup_failure_is_returned env4 live_link folder1 world2
              (symlinkMetadataFolder env4 live_link folder1 world2).1
              (symlinkMetadataFolder env4 live_link folder1 world2).2
              [C_EvalSymlinks live_link; C_Stat live_link; C_Remove live_link]
              "/srv/lmdqdata_1" denied) as (H1 & H2 & _).
  - apply surjective_pairing.
  - vm_compute. reflexivity.
  - discriminate.
  - vm_compute. reflexivity.
  - split; assumption.
Defined.

(** C6 fails: with the removal of the old snapshot denied, the whole run
    makes the new link and then exits with a fatal error. *)
Lemma cleanup_failure_aborts_run :
  ∃ w', main env4 world1
        = (Exit "ERROR: unlinkat /srv/lmdqdata_1: permission denied", w')
    ∧ fs w' !! live_link = Some (Symlink folder1)
    ∧ fs w' !! "/srv/lmdqdata_1" = Some Dir
    ∧ last (trace w') = Some (C_RemoveAll "/srv/lmdqdata_1").
Proof.
  exists (after (main env4) world1). repeat split; vm_compute; reflexivity.
Qed.

(** After a first promotion the link resolves to the new snapshot; the
    second promotion with the same arguments removes that snapshot. *)
Lemma second_promotion_deletes_snapshot_witness :
  let w1 := after (symlinkMetadataFolder env1 live_link folder1) world2 in
  ∃ w', symlinkMetadataFolder env1 live_link folder1 w1 = (Val None, w')
    ∧ trace w' = trace w1 ++ [C_EvalSymlinks live_link; C_RemoveAll folder1]
    ∧ (∀ k, under folder1 k → fs w' !! k = None)
    ∧ (∀ k, ¬ under folder1 k → fs w' !! k = fs w1 !! k).
Proof.
  intros w1.
  apply (second_promotion_deletes_snapshot env1 live_link folder1 w1).
  - vm_compute. reflexivity.
  - by_compute.
  - discriminate.
  - reflexivity.
  - reflexivity.
Defined.

(** The two calls in a row on a disk, and what a reader of the link finds. *)
Example promotion_twice :
  let w1 := after (symlinkMetadataFolder env1 live_link folder1) world2 in
  let w2 := after (symlinkMetadataFolder env1 live_link folder1) w1 in
  (symlinkMetadataFolder env1 live_link folder1 world2).1 = Val None
  ∧ fs w1 = list_to_map [("/srv", Dir); (live_link, Symlink folder1); (folder1, Dir)]
  ∧ (filepath_EvalSymlinks env1 live_link w1).1 = Val (folder1, None)
  ∧ (symlinkMetadataFolder env1 live_link folder1 w1).1 = Val None
  ∧ fs w2 = list_to_map [("/srv", Dir); (live_link, Symlink folder1)]
  ∧ (filepath_EvalSymlinks env1 live_link w2).1
    = Val ("", Some (PathError "lstat" folder1 "no such file or directory")).
Proof. repeat split; vm_compute; reflexivity. Qed.

(** *** createMDQFiles *)

Section Indexer.
Context (env : Env) {engine : Gosaml}.


(** C7, as the program has it: for a feed of three entities whose keys have
    different file names, whose entityIDs differ and are nobody's location,
    and of which at least two have the location [l], createMDQFiles leaves
    the three primary files, each with the snippet of its entity, and one
    file for [l]: it holds the snippet of the last entity with that location.
    The entities that share a location share its file; each write of a name
    replaces the file. *)
Theorem shared_location_one_file metadata baseFolder feedName w w' e1 e2 e3 l :
  let dom := NewXp metadata in
  let dir := baseFolder +:+ "/" +:+ feedName in
  let entities := [e1; e2; e3] in
  let sharing := filter (λ e, l ∈ entity_locations dom e) entities in
  wf_fs (fs w) →
  createMDQFiles env metadata baseFolder feedName w = (Val None, w') →
  Query dom None entities_query = entities →
  (∀ k k', k ∈ flat_map (entity_keys dom) entities →
           k' ∈ flat_map (entity_keys dom) entities →
           mdq_name k = mdq_name k' → k = k') →
  NoDup (map (entity_id dom) entities) →
  (∀ e e', e ∈ entities → e' ∈ entities → entity_id dom e ∉ entity_locations dom e') →
  (2 ≤ length sharing)%nat →
  (∀ e, e ∈ entities → fs w' !! mdq_path dir (entity_id dom e) = Some (File (fragment e)))
  ∧ fs w' !! mdq_path dir l = (λ e, File (fragment e)) <$> last sharing.
Proof.
  intros dom dir entities sharing Hwf H Hq Hinj Hnd Hloc Hshare.
  assert (∀ e k, e ∈ entities → k ∈ entity_keys dom e →
                 k ∈ flat_map (entity_keys dom) entities) as Hkeys.
  { intros e k He Hk. apply list_elem_of_In, in_flat_map. exists e.
    split; by apply list_elem_of_In. }
  assert (∀ key e, key ∈ flat_map (entity_keys dom) entities → e ∈ entities →
            mdq_name key ∈ map mdq_name (entity_keys dom e) ↔ key ∈ entity_keys dom e)
    as Hname.
  { intros key e Hkey He. split.
    - intros (k & Hk1 & Hk2)%list_elem_of_fmap.
      rewrite (Hinj key k); eauto.
    - apply list_elem_of_fmap_2. }
  unfold dir. clear dir. split.
  - intros e He.
    rewrite (file_of_key env _ _ _ _ _ (entity_id dom e) Hwf H). fold dom. rewrite Hq.
    unfold writers.
    rewrite (filter_ext_in _ (λ e', entity_id dom e' = entity_id dom e)).
    + by rewrite (filter_unique _ _ e Hnd He).
    + intros e' He'. rewrite Hname; [|by apply (Hkeys e); [|left]|done].
      unfold entity_keys. rewrite elem_of_cons. split; [|by intros <-; left].
      intros [?|Hin]; [done|]. by destruct (Hloc e e' He He').
  - assert (∃ e, e ∈ entities ∧ l ∈ entity_locations dom e) as (e0 & He0 & Hl0).
    { destruct sharing as [|e0 rest] eqn:E; [simpl in Hshare; lia|].
      exists e0. apply and_comm, (list_elem_of_filter (λ e, l ∈ entity_locations dom e)).
      fold sharing. rewrite E. by left. }
    rewrite (file_of_key env _ _ _ _ _ l Hwf H). fold dom. rewrite Hq.
    unfold writers.
    rewrite (filter_ext_in _ (λ e, l ∈ entity_locations dom e)); [done|].
    intros e' He'. rewrite Hname; [|by apply (Hkeys e0); [|right]|done].
    unfold entity_keys. rewrite elem_of_cons. split; [|by right].
    intros [->|?]; [|done]. by destruct (Hloc e' e0 He' He0).
Qed.

End Indexer.



Lemma shared_location_one_file_witness :
  let w' := after (createMDQFiles env1 hub_xml "/srv" "hub") world0 in
  (∀ e, e ∈ ["urn:a@https://idp/sso"; "urn:b@https://idp/sso"; "urn:c"] →
        fs w' !! mdq_path "/srv/hub" (entity_id (NewXp hub_xml) e) = Some (File e))
  ∧ fs w' !! mdq_path "/srv/hub" "https://idp/sso" = Some (File "urn:b@https://idp/sso").
Proof.
  apply (shared_location_one_file env1 (engine := mini) hub_xml "/srv" "hub" world0
           (after (createMDQFiles env1 hub_xml "/srv" "hub") world0)
           "urn:a@https://idp/sso" "urn:b@https://idp/sso" "urn:c" "https://idp/sso").
  - by_compute.
  - vm_compute. reflexivity.
  - vm_compute. reflexivity.
  - apply (Forall_pairs (λ k k', mdq_name k = mdq_name k' → k = k')). by_compute.
  - by_compute.
  - apply (Forall_pairs (λ e e', entity_id (NewXp hub_xml) e
                                   ∉ entity_locations (NewXp hub_xml) e')).
    by_compute.
  - vm_compute. lia.
Defined.

(** C7 fails: the two entities with the location [https://idp/sso] have one
    file for it, with the snippet of the second; the snippet of the first is
    in its primary file only.  The feed has four files. *)
Lemma shared_location_no_independent_copies :
  let w' := after (createMDQFiles env1 hub_xml "/srv" "hub") world0 in
  (createMDQFiles env1 hub_xml "/srv" "hub" world0).1 = Val None
  ∧ entity_locations (NewXp hub_xml) "urn:a@https://idp/sso" = ["https://idp/sso"]
  ∧ entity_locations (NewXp hub_xml) "urn:b@https://idp/sso" = ["https://idp/sso"]
  ∧ fragment "urn:a@https://idp/sso" ≠ fragment "urn:b@https://idp/sso"
  ∧ fs w' = list_to_map
      [("/srv", Dir); ("/srv/hub", Dir);
       ("/srv/hub/{sha1}ba2b6066c746dcd30c3b6e622a3adfbd35eaaaa9",
        File "urn:a@https://idp/sso");
       ("/srv/hub/{sha1}daedcd9bee920d387cc49d9282f5c9f03efe7c6f",
        File "urn:b@https://idp/sso");
       ("/srv/hub/{sha1}1454eebe2a16f353ff79c2b84e9519719eba8f67", File "urn:c");
       ("/srv/hub/{sha1}ca4eba1285008f8bf753d9dedfc39f879300d88d",
        File "urn:b@https://idp/sso")]
  ∧ mdq_name "https://idp/sso" = "{sha1}ca4eba1285008f8bf753d9dedfc39f879300d88d".
Proof. repeat split; try (vm_compute; reflexivity). vm_compute. discriminate. Qed.
